(** * Coders for individual Variable objects (xarray/coding/variables.py)

    A shallow embedding of the per-variable coders: the metadata move
    primitive ([safe_setitem], [pop_to]), the lazy elementwise transform
    ([_ElementwiseFunctionArray], [lazy_elemwise_func]), the float dtype
    policy ([_choose_float_dtype]) and the three coders [CFMaskCoder],
    [CFScaleOffsetCoder] and [UnsignedIntegerCoder].

    Python objects are modelled as follows.
    - numpy arrays are mutable buffers: they live in a store ([heap]) and are
      referred to by location, so that [astype(copy=True)], the aliasing of
      [np.asarray] and the in-place operators [*=], [+=], [-=], [/=] are
      what they are in the source;
    - a coder runs in a monad [M] that threads the store and a log of what
      the call allocates and warns about, and that can raise;
    - [attrs] and [encoding] are finite maps from strings to Python values;
    - numeric scalars are unbounded integers with the wrap-around of the
      integer dtypes written out, and IEEE binary64 floats (narrower float
      dtypes hold binary64 values rounded to their precision);
    - the dtype an operation of an array with a scalar is computed in
      follows numpy 1.x, where it depends on the value of the scalar
      ([np.result_type]);
    - arrays in the store have one or more dimensions, and only their
      elements in row-major order are kept. *)

From Stdlib Require Import ZArith Floats Bool.
From stdpp Require Import gmap strings list.

Local Open Scope Z_scope.

(** ** numpy dtypes *)

(** The [kind] character of a numpy dtype. *)
Inductive dtype_kind :=
  | kind_b   (* boolean *)
  | kind_i   (* signed integer *)
  | kind_u   (* unsigned integer *)
  | kind_f   (* floating point *)
  | kind_c   (* complex floating point *)
  | kind_m   (* timedelta *)
  | kind_M   (* datetime *)
  | kind_O   (* object *)
  | kind_S   (* byte string *)
  | kind_U   (* unicode string *)
  | kind_V.  (* void *)

Record dtype := Dtype { kind : dtype_kind; itemsize : Z }.

#[global] Instance dtype_kind_eq_dec : EqDecision dtype_kind.
Proof. solve_decision. Defined.

#[global] Instance dtype_eq_dec : EqDecision dtype.
Proof. solve_decision. Defined.

Definition bool_ := Dtype kind_b 1.
Definition int8 := Dtype kind_i 1.
Definition int16 := Dtype kind_i 2.
Definition int32 := Dtype kind_i 4.
Definition int64 := Dtype kind_i 8.
Definition uint8 := Dtype kind_u 1.
Definition uint16 := Dtype kind_u 2.
Definition uint32 := Dtype kind_u 4.
Definition uint64 := Dtype kind_u 8.
Definition float16 := Dtype kind_f 2.
Definition float32 := Dtype kind_f 4.
Definition float64 := Dtype kind_f 8.
Definition complex64 := Dtype kind_c 8.
Definition complex128 := Dtype kind_c 16.
Definition object_ := Dtype kind_O 8.

(** [np.issubdtype(dtype, np.floating)] *)
Definition issubdtype_floating (d : dtype) : bool :=
  match kind d with kind_f => true | _ => false end.

(** [np.issubdtype(dtype, np.integer)]: signed and unsigned integers. *)
Definition issubdtype_integer (d : dtype) : bool :=
  match kind d with kind_i | kind_u => true | _ => false end.

(** ** Python values *)

(** Scalars: [None], integers, floats, strings and dtype objects. *)
Inductive scalar :=
  | SNone
  | SInt (z : Z)
  | SFloat (f : float)
  | SStr (s : string)
  | SDtype (d : dtype).

(** A metadata value is a scalar or an array-like (numpy array or list)
    given by its shape and its elements in row-major order; a
    zero-dimensional array has shape [[]] and one element. The elements of
    an array-like have the default dtype of their values ([int64] for
    integers, [float64] for floats). *)
Inductive pyval :=
  | Scalar (x : scalar)
  | Array (shape : list nat) (xs : list scalar).

Abbreviation PNone := (Scalar SNone).

(** [value is not None] *)
Definition is_not_None (v : pyval) : bool :=
  match v with Scalar SNone => false | _ => true end.

(** [value == s] for a string literal [s] *)
Definition eq_str (v : pyval) (s : string) : bool :=
  match v with Scalar (SStr s') => String.eqb s' s | _ => false end.

(** Exceptions a call can raise. *)
Inductive exn :=
  | ValueError (msg : string)
  | TypeError
  | IndexError
  | AttributeError
  | AssertionError.

Definition result (A : Type) : Type := exn + A.

(** ** numpy: scalar arithmetic *)

Module np.

(** Integer to float conversion, correctly rounded to binary64. *)
Definition float_of_Z (z : Z) : float :=
  SF2Prim (binary_normalize 53 1024 z 0 false).

(** Rounding of a binary64 value to the float dtype of the given item
    size: binary16, binary32 or binary64. *)
Definition round_float (size : Z) (f : float) : float :=
  match Prim2SF f with
  | S754_finite s m e =>
      let z := if s then Zneg m else Zpos m in
      if size <=? 2 then SF2Prim (binary_normalize 11 16 z e s)
      else if size <=? 4 then SF2Prim (binary_normalize 24 128 z e s)
      else f
  | _ => f
  end.

(** Integer to float conversion for the float dtype of the given item
    size, rounded once. *)
Definition float_of_Z_at (size : Z) (z : Z) : float :=
  if size <=? 2 then SF2Prim (binary_normalize 11 16 z 0 false)
  else if size <=? 4 then SF2Prim (binary_normalize 24 128 z 0 false)
  else float_of_Z z.

(** Float to integer conversion, truncating toward zero; what a C cast
    gives for NaN and the infinities depends on the platform, the value
    taken here is the one of x86-64. *)
Definition Z_of_float (f : float) : Z :=
  match Prim2SF f with
  | S754_zero _ => 0
  | S754_finite s m e =>
      let a := if 0 <=? e then Zpos m * 2 ^ e else Zpos m / 2 ^ (- e) in
      if s then - a else a
  | _ => - 2 ^ 63
  end.

(** Wrap-around of an integer to [8 * size] bits. *)
Definition wrap_unsigned (size : Z) (z : Z) : Z := z mod 2 ^ (8 * size).
Definition wrap_signed (size : Z) (z : Z) : Z :=
  (z + 2 ^ (8 * size - 1)) mod 2 ^ (8 * size) - 2 ^ (8 * size - 1).

(** Conversion of one element to a dtype, as [astype] and [np.asarray]
    do it (C cast semantics: integers wrap, floats round). *)
Definition cast (d : dtype) (x : scalar) : result scalar :=
  match kind d, x with
  | kind_O, _ => inr x
  | kind_i, SInt z => inr (SInt (wrap_signed (itemsize d) z))
  | kind_i, SFloat f => inr (SInt (wrap_signed (itemsize d) (Z_of_float f)))
  | kind_u, SInt z => inr (SInt (wrap_unsigned (itemsize d) z))
  | kind_u, SFloat f => inr (SInt (wrap_unsigned (itemsize d) (Z_of_float f)))
  | kind_b, SInt z => inr (SInt (if z =? 0 then 0 else 1))
  | kind_b, SFloat f => inr (SInt (if PrimFloat.eqb f 0 then 0 else 1))
  | kind_f, SInt z => inr (SFloat (float_of_Z_at (itemsize d) z))
  | kind_f, SFloat f => inr (SFloat (round_float (itemsize d) f))
  | _, SNone => inl TypeError
  | _, _ => inl (ValueError "could not convert")
  end.

(** [a == b] on two scalars: numeric comparison, with an integer compared
    to a float as a float; NaN equals nothing. *)
Definition eqb (a b : scalar) : bool :=
  match a, b with
  | SInt x, SInt y => x =? y
  | SFloat x, SFloat y => PrimFloat.eqb x y
  | SInt x, SFloat y => PrimFloat.eqb (float_of_Z x) y
  | SFloat x, SInt y => PrimFloat.eqb x (float_of_Z y)
  | SStr x, SStr y => String.eqb x y
  | SDtype x, SDtype y => bool_decide (x = y)
  | SNone, SNone => true
  | _, _ => false
  end.

(** *** Type promotion (numpy 1.x)

    An operation of an array with another operand is computed in a dtype
    that holds both ([np.result_type]); for the boolean, integer and
    floating dtypes: *)

(** The smallest float size that holds the integers of a size. *)
Definition float_holding (size : Z) : Z :=
  if size <=? 1 then 2 else if size <=? 2 then 4 else 8.

(** A signed integer dtype with an unsigned one. *)
Definition signed_unsigned (si su : Z) : dtype :=
  if su <? si then Dtype kind_i si
  else if su <? 8 then Dtype kind_i (2 * su)
  else float64.

(** [np.promote_types] *)
Definition promote_types (a b : dtype) : option dtype :=
  match kind a, kind b with
  | kind_b, kind_b | kind_b, kind_i | kind_b, kind_u | kind_b, kind_f => Some b
  | kind_i, kind_b | kind_u, kind_b | kind_f, kind_b => Some a
  | kind_i, kind_i => Some (Dtype kind_i (Z.max (itemsize a) (itemsize b)))
  | kind_u, kind_u => Some (Dtype kind_u (Z.max (itemsize a) (itemsize b)))
  | kind_f, kind_f => Some (Dtype kind_f (Z.max (itemsize a) (itemsize b)))
  | kind_i, kind_u => Some (signed_unsigned (itemsize a) (itemsize b))
  | kind_u, kind_i => Some (signed_unsigned (itemsize b) (itemsize a))
  | kind_f, kind_i | kind_f, kind_u =>
      Some (Dtype kind_f (Z.max (itemsize a) (float_holding (itemsize b))))
  | kind_i, kind_f | kind_u, kind_f =>
      Some (Dtype kind_f (Z.max (float_holding (itemsize a)) (itemsize b)))
  | _, _ => None
  end.

(** The dtype of a scalar: [int64] for an integer that fits, [uint64] for a
    larger one that fits, and [float64]. *)
Definition scalar_dtype (x : scalar) : option dtype :=
  match x with
  | SInt z =>
      if (- 2 ^ 63 <=? z) && (z <? 2 ^ 63) then Some int64
      else if (2 ^ 63 <=? z) && (z <? 2 ^ 64) then Some uint64
      else None
  | SFloat _ => Some float64
  | _ => None
  end.

(** The C double constant [3.4e38], above which a float is given the
    dtype [float64]. *)
Definition float32_range : float := 0x1.ff933c78cdfadp+127.

(** [np.min_scalar_type]: the smallest dtype of its kind that holds the
    value, unsigned for an integer that is not negative; a float is only
    checked against the range of the dtype. The flag tells an unsigned
    value that also fits the signed dtype of the same size. *)
Definition min_scalar_type (x : scalar) : option (dtype * bool) :=
  match x with
  | SInt z =>
      if 0 <=? z then
        if z <? 2 ^ 8 then Some (uint8, z <? 2 ^ 7)
        else if z <? 2 ^ 16 then Some (uint16, z <? 2 ^ 15)
        else if z <? 2 ^ 32 then Some (uint32, z <? 2 ^ 31)
        else if z <? 2 ^ 64 then Some (uint64, z <? 2 ^ 63)
        else None
      else
        if - 2 ^ 7 <=? z then Some (int8, false)
        else if - 2 ^ 15 <=? z then Some (int16, false)
        else if - 2 ^ 31 <=? z then Some (int32, false)
        else if - 2 ^ 63 <=? z then Some (int64, false)
        else None
  | SFloat f =>
      if (PrimFloat.ltb (-65000) f && PrimFloat.ltb f 65000) || negb (is_finite f)
      then Some (float16, false)
      else if PrimFloat.ltb (- float32_range) f && PrimFloat.ltb f float32_range
      then Some (float32, false)
      else Some (float64, false)
  | _ => None
  end.

(** The categories numpy orders kinds by when it decides whether the value
    of a scalar counts: boolean, integer, floating. *)
Definition category (k : dtype_kind) : option nat :=
  match k with
  | kind_b => Some 0%nat
  | kind_i | kind_u => Some 1%nat
  | kind_f => Some 2%nat
  | _ => None
  end.

(** [np.result_type(array, scalar)] for an array of dtype [d] of one or
    more dimensions and a Python or numpy scalar or zero-dimensional
    array: when the category of the scalar is not above the array's, the
    scalar takes part with the smallest dtype that holds its value (a
    small unsigned one as the signed dtype of its size unless the array is
    unsigned), otherwise with its own dtype. *)
Definition result_type (d : dtype) (x : scalar) : option dtype :=
  match category (kind d), scalar_dtype x with
  | Some ca, Some sd =>
      match category (kind sd), min_scalar_type x with
      | Some cs, Some (m, small) =>
          if (cs <=? ca)%nat then
            promote_types d
              (if small && negb (bool_decide (kind d = kind_u))
               then Dtype kind_i (itemsize m) else m)
          else promote_types d sd
      | _, _ => None
      end
  | _, _ => None
  end.

(** [data == fv] on one element of an array of dtype [d]: both sides are
    converted to the dtype of the comparison. Outside the numeric dtypes
    the values are compared as they are. *)
Definition eq_at (d : dtype) (x fv : scalar) : bool :=
  match result_type d fv with
  | Some D =>
      match cast D x, cast D fv with
      | inr a, inr b => eqb a b
      | _, _ => false
      end
  | None => eqb x fv
  end.

(** [pd.isnull] on a scalar: [None] and NaN. *)
Definition isnull (x : scalar) : bool :=
  match x with
  | SNone => true
  | SFloat f => is_nan f
  | _ => false
  end.

(** [np.ndim(v)] *)
Definition ndim (v : pyval) : nat :=
  match v with
  | Scalar _ => 0%nat
  | Array shape _ => length shape
  end.

(** [np.ravel(v)]: the elements, a scalar being one element. *)
Definition ravel (v : pyval) : list scalar :=
  match v with
  | Scalar x => [x]
  | Array _ xs => xs
  end.

(** [np.asarray(v).item()]: the one element of [v] as a plain scalar. *)
Definition item (v : pyval) : result pyval :=
  match ravel v with
  | [x] => inr (Scalar x)
  | _ => inl (ValueError "can only convert an array of size 1 to a Python scalar")
  end.

(** [np.dtype(v)]: a dtype object, [None] (the default, float64) or a
    dtype name. *)
Definition dtype_of_name (s : string) : option dtype :=
  if String.eqb s "bool" then Some bool_
  else if String.eqb s "int8" || String.eqb s "i1" then Some int8
  else if String.eqb s "int16" || String.eqb s "i2" then Some int16
  else if String.eqb s "int32" || String.eqb s "i4" then Some int32
  else if String.eqb s "int64" || String.eqb s "i8" then Some int64
  else if String.eqb s "uint8" || String.eqb s "u1" then Some uint8
  else if String.eqb s "uint16" || String.eqb s "u2" then Some uint16
  else if String.eqb s "uint32" || String.eqb s "u4" then Some uint32
  else if String.eqb s "uint64" || String.eqb s "u8" then Some uint64
  else if String.eqb s "float16" || String.eqb s "f2" then Some float16
  else if String.eqb s "float32" || String.eqb s "f4" then Some float32
  else if String.eqb s "float64" || String.eqb s "f8" then Some float64
  else if String.eqb s "object" || String.eqb s "O" then Some object_
  else None.

Definition as_dtype (v : pyval) : result dtype :=
  match v with
  | Scalar (SDtype d) => inr d
  | Scalar SNone => inr float64
  | Scalar (SStr s) =>
      match dtype_of_name s with
      | Some d => inr d
      | None => inl TypeError
      end
  | _ => inl TypeError
  end.

(** [f] applied to every element, stopping at the first error. *)
Fixpoint traverse {A B : Type} (f : A -> result B) (xs : list A) : result (list B) :=
match xs with
| [] => inr []
| x :: xs' =>
    match f x with
    | inl e => inl e
    | inr y =>
        match traverse f xs' with
        | inl e => inl e
        | inr ys => inr (y :: ys)
        end
    end
end.

(** [dtype.type(v)]: the scalar constructor of a dtype, applied to a
    scalar or elementwise to an array-like. *)
Definition dtype_type (d : dtype) (v : pyval) : result pyval :=
match v with
| Scalar x =>
    match cast d x with
    | inl e => inl e
    | inr y => inr (Scalar y)
    end
| Array shape xs =>
    match traverse (cast d) xs with
    | inl e => inl e
    | inr ys => inr (Array shape ys)
    end
end.

(** The operand of an arithmetic operator: a number, or an array-like
    holding exactly one number (it broadcasts). *)
Definition operand (v : pyval) : result scalar :=
let of_scalar x :=
  match x with
  | SInt _ | SFloat _ => inr x
  | _ => inl TypeError
  end in
match v with
| Scalar x => of_scalar x
| Array _ [x] => of_scalar x
| Array _ _ => inl (ValueError "operands could not be broadcast together")
end.

(** The dtype an operation of an array of dtype [d] with the operand [v]
    is computed in: a scalar or a zero-dimensional array takes part by its
    value, an array of one or more dimensions with its dtype. *)
Definition loop_dtype (d : dtype) (v : pyval) : option dtype :=
match v with
| Scalar x | Array [] [x] => result_type d x
| Array (_ :: _) [x] =>
    match scalar_dtype x with
    | Some sd => promote_types d sd
    | None => None
    end
| Array _ _ => None
end.

(** Casting under the rule [same_kind], which the in-place operators apply
    to their result: kinds are ordered boolean, unsigned, signed,
    floating, and a cast never goes down. *)
Definition same_kind (from to : dtype) : bool :=
let order k :=
  match k with
  | kind_b => Some 0%nat
  | kind_u => Some 1%nat
  | kind_i => Some 2%nat
  | kind_f => Some 4%nat
  | _ => None
  end in
match order (kind from), order (kind to) with
| Some m, Some n => (m <=? n)%nat
| _, _ => false
end.

(** Type resolution of [data op= v] for data of dtype [d]: the dtype of
    the loop, or [TypeError] when there is none or when its result cannot
    be stored into [d]. True division ([zop = None]) has float loops
    only. *)
Definition loop_for (d : dtype) (zop : option (Z -> Z -> Z)) (v : pyval)
  : result dtype :=
match loop_dtype d v with
| Some D =>
    let D :=
      match zop, kind D with
      | None, kind_b | None, kind_i | None, kind_u => float64
      | _, _ => D
      end in
    match kind D with
    | kind_i | kind_u | kind_f => if same_kind D d then inr D else inl TypeError
    | _ => inl TypeError
    end
| None => inl TypeError
end.

(** One element of [data op= v] for data of dtype [d], computed in the
    loop dtype [D] with the number [y] that [v] holds: both sides are
    converted to [D], the result is rounded (or wrapped) to [D] and stored
    at dtype [d]. *)
Definition arith (d D : dtype) (zop : option (Z -> Z -> Z))
  (fop : float -> float -> float) (x y : scalar) : result scalar :=
match kind D with
| kind_f =>
    match cast D x, cast D y with
    | inr (SFloat a), inr (SFloat b) =>
        cast d (SFloat (round_float (itemsize D) (fop a b)))
    | _, _ => inl TypeError
    end
| kind_i | kind_u =>
    match zop, x, y with
    | Some op, SInt a, SInt b =>
        match cast D (SInt (op a b)) with
        | inr z => cast d z
        | inl e => inl e
        end
    | _, _, _ => inl TypeError
    end
| _ => inl TypeError
end.

(** One element of [data op= v], type resolution included. *)
Definition arith_with (d : dtype) (zop : option (Z -> Z -> Z))
  (fop : float -> float -> float) (v : pyval) (x : scalar) : result scalar :=
match operand v, loop_for d zop v with
| inr y, inr D => arith d D zop fop x y
| inl e, _ => inl e
| _, inl e => inl e
end.

End np.

(** ** The store and the coder monad *)

(** A numpy array of one or more dimensions: its dtype and its elements in
    row-major order. *)
Record ndarray := { arr_dtype : dtype; arr_values : list scalar }.

(** Arrays are referred to by their location in the store. *)
Definition loc := nat.

(** The two [SerializationWarning]s of this module. *)
Inductive warning :=
  | MultipleFillValues (name : option string) (fill_values : list scalar)
  | UnsignedNotInteger (name : option string).

(** What a call leaves behind besides its result: the objects it
    constructs and the warnings it emits, in order. *)
Inductive event :=
  | NewVariable
  | NewElementwiseFunctionArray
  | MapBlocks
  | Warn (w : warning).

Record state := State { heap : list ndarray; log : list event }.

(** State and exceptions; the state reached when an exception is raised is
    kept. *)
Definition M (A : Type) : Type := state -> result A * state.

Definition ret {A : Type} (a : A) : M A := fun st => (inr a, st).

Definition raise {A : Type} (e : exn) : M A := fun st => (inl e, st).

Definition bind {A B : Type} (m : M A) (f : A -> M B) : M B :=
  fun st =>
    match m st with
    | (inr a, st') => f a st'
    | (inl e, st') => (inl e, st')
    end.

Notation "x <- m ;; k" := (bind m (fun x => k))
  (at level 20, m at level 99, k at level 200, only parsing).

(** A pure computation that may fail, run in [M]. *)
Definition lift {A : Type} (r : result A) : M A := fun st => (r, st).

Definition emit (e : event) : M unit :=
  fun st => (inr tt, State (heap st) (log st ++ [e])).

(** [warnings.warn(..., SerializationWarning)] *)
Definition warn (w : warning) : M unit := emit (Warn w).

(** Allocation of a new array object. *)
Definition alloc (a : ndarray) : M loc :=
  fun st => (inr (length (heap st)), State (heap st ++ [a]) (log st)).

(** The array at a location; locations handed out by [alloc] are always
    valid, a location outside the store is an error of the caller. *)
Definition read (l : loc) : M ndarray :=
  fun st =>
    match heap st !! l with
    | Some a => (inr a, st)
    | None => (inl (ValueError "no array at this location"), st)
    end.

(** In-place update of the array at a location. *)
Definition write (l : loc) (a : ndarray) : M unit :=
  fun st => (inr tt, State (<[l := a]> (heap st)) (log st)).

(** ** numpy: operations on arrays in the store *)

(** [data.astype(dtype, copy=True)]: always a new array. *)
Definition astype (data : loc) (d : dtype) : M loc :=
  a <- read data ;;
  xs <- lift (np.traverse (np.cast d) (arr_values a)) ;;
  alloc {| arr_dtype := d; arr_values := xs |}.

(** [np.asarray(data, dtype=dtype)]: the array itself when it already has
    the dtype, a converted copy otherwise. *)
Definition asarray (data : loc) (d : dtype) : M loc :=
  a <- read data ;;
  if decide (arr_dtype a = d) then ret data else astype data d.

(** The in-place operators [data op= v]: the operand and the dtype of the
    loop are resolved first, then the array at [data] is overwritten. *)
Definition inplace (zop : option (Z -> Z -> Z)) (fop : float -> float -> float)
  (data : loc) (v : pyval) : M unit :=
  a <- read data ;;
  y <- lift (np.operand v) ;;
  D <- lift (np.loop_for (arr_dtype a) zop v) ;;
  xs <- lift (np.traverse (fun x => np.arith (arr_dtype a) D zop fop x y)
                (arr_values a)) ;;
  write data {| arr_dtype := arr_dtype a; arr_values := xs |}.

Definition imul := inplace (Some Z.mul) PrimFloat.mul.
Definition iadd := inplace (Some Z.add) PrimFloat.add.
Definition isub := inplace (Some Z.sub) PrimFloat.sub.
Definition itruediv := inplace None PrimFloat.div.

(** The value of [condition] in [_apply_mask]: the Python [False] it starts
    from, or a boolean array. *)
Inductive condition :=
  | PyFalse
  | BoolArray (bs : list bool).

(** [data == fv], elementwise, at the dtype numpy compares an array of the
    dtype of [data] with the scalar [fv]. *)
Definition array_eq (a : ndarray) (fv : scalar) : list bool :=
  map (fun x => np.eq_at (arr_dtype a) x fv) (arr_values a).

(** [condition |= bs] *)
Definition ior (c : condition) (bs : list bool) : condition :=
  match c with
  | PyFalse => BoolArray bs
  | BoolArray cs => BoolArray (zip_with orb cs bs)
  end.

(** [np.where(condition, x, data)]: a new array. *)
Definition where_ (c : condition) (x : scalar) (a : ndarray) : M loc :=
  alloc {| arr_dtype := arr_dtype a;
           arr_values :=
             match c with
             | PyFalse => arr_values a
             | BoolArray bs =>
                 zip_with (fun (b : bool) y => if b then x else y) bs (arr_values a)
             end |}.

(** Indexing of an array by a list of positions: a new array, or
    [IndexError]. *)
Definition take (a : ndarray) (key : list nat) : result ndarray :=
  match np.traverse (fun i => match arr_values a !! i with
                              | Some x => inr x
                              | None => inl IndexError
                              end) key with
  | inl e => inl e
  | inr xs => inr {| arr_dtype := arr_dtype a; arr_values := xs |}
  end.

(** ** Elementwise transforms *)

(** [_apply_mask]: mask all matching values. *)
Definition _apply_mask (data : loc) (encoded_fill_values : list scalar)
  (decoded_fill_value : scalar) (dtype : dtype) : M loc :=
  data <- asarray data dtype ;;
  a <- read data ;;
  let condition :=
    foldl (fun condition fv => ior condition (array_eq a fv))
      PyFalse encoded_fill_values in
  where_ condition decoded_fill_value a.

(** [_scale_offset_decoding] *)
Definition _scale_offset_decoding (data : loc) (scale_factor add_offset : pyval)
  (dtype : dtype) : M loc :=
  data <- astype data dtype ;;
  _ <- (if is_not_None scale_factor then imul data scale_factor else ret tt) ;;
  _ <- (if is_not_None add_offset then iadd data add_offset else ret tt) ;;
  ret data.

(** The callables handed to [lazy_elemwise_func]: the three [partial]
    objects this module builds, with their keyword arguments, and any other
    callable from an array to an array. *)
Inductive func :=
  | partial_apply_mask (encoded_fill_values : list scalar)
      (decoded_fill_value : scalar) (dtype : dtype)
  | partial_scale_offset_decoding (scale_factor add_offset : pyval)
      (dtype : dtype)
  | partial_asarray (dtype : dtype)
  | callable (f : loc -> M loc).

(** [func(data)] *)
Definition call (f : func) (data : loc) : M loc :=
  match f with
  | partial_apply_mask encoded_fill_values decoded_fill_value dtype =>
      _apply_mask data encoded_fill_values decoded_fill_value dtype
  | partial_scale_offset_decoding scale_factor add_offset dtype =>
      _scale_offset_decoding data scale_factor add_offset dtype
  | partial_asarray dtype => asarray data dtype
  | callable f => f data
  end.

(** ** Lazily computed arrays *)

(** Explicitly indexed arrays: the adapter [indexing.as_indexable] puts
    around a numpy array, and [_ElementwiseFunctionArray]. *)
Inductive indexable :=
  | NumpyIndexingAdapter (array : loc)
  | _ElementwiseFunctionArray (array : indexable) (func : func) (_dtype : dtype).

(** Any valid value of [Variable._data]: a numpy array, a dask array (its
    blocks, the block functions mapped over them so far, and its dtype) or
    an explicitly indexed array. *)
Inductive array :=
  | np_ndarray (l : loc)
  | dask_array (blocks : list loc) (graph : list func) (meta : dtype)
  | explicitly_indexed (x : indexable).

Definition is_duck_dask_array (a : array) : bool :=
  match a with dask_array _ _ _ => true | _ => false end.

(** [_ElementwiseFunctionArray(array, func, dtype)]: [__init__] asserts
    that the array is no dask array and keeps [as_indexable(array)]. *)
Definition new_ElementwiseFunctionArray (array : array) (func : func)
  (dtype : dtype) : M indexable :=
  _ <- emit NewElementwiseFunctionArray ;;
  match array with
  | dask_array _ _ _ => raise AssertionError
  | np_ndarray l => ret (_ElementwiseFunctionArray (NumpyIndexingAdapter l) func dtype)
  | explicitly_indexed x => ret (_ElementwiseFunctionArray x func dtype)
  end.

(** The [dtype] property. *)
Definition indexable_dtype (x : indexable) : M dtype :=
  match x with
  | NumpyIndexingAdapter l => a <- read l ;; ret (arr_dtype a)
  | _ElementwiseFunctionArray _ _ d => ret d
  end.

(** [__getitem__]: [type(self)(self.array[key], self.func, self.dtype)];
    indexing the adapter of a numpy array gives the adapter of the indexed
    array. *)
Fixpoint getitem (x : indexable) (key : list nat) : M indexable :=
  match x with
  | NumpyIndexingAdapter l =>
      a <- read l ;;
      b <- lift (take a key) ;;
      l' <- alloc b ;;
      ret (NumpyIndexingAdapter l')
  | _ElementwiseFunctionArray array func dtype =>
      array' <- getitem array key ;;
      new_ElementwiseFunctionArray (explicitly_indexed array') func dtype
  end.

(** [get_duck_array]: [self.func(self.array.get_duck_array())]; the adapter
    hands out the numpy array it wraps. *)
Fixpoint get_duck_array (x : indexable) : M loc :=
  match x with
  | NumpyIndexingAdapter l => ret l
  | _ElementwiseFunctionArray array func _ =>
      a <- get_duck_array array ;;
      call func a
  end.

(** [lazy_elemwise_func]: lazily apply an element-wise function to an
    array. *)
Definition lazy_elemwise_func : array -> func -> dtype -> M array :=
  fun array func dtype =>
  if is_duck_dask_array array then
    match array with
    | dask_array blocks graph _ =>
        (* da.map_blocks(func, array, dtype=dtype) *)
        _ <- emit MapBlocks ;;
        ret (dask_array blocks (graph ++ [func]) dtype)
    | _ => ret array
    end
  else
    x <- new_ElementwiseFunctionArray array func dtype ;;
    ret (explicitly_indexed x).

(** [data.dtype] *)
Definition array_dtype (data : array) : M dtype :=
  match data with
  | np_ndarray l => a <- read l ;; ret (arr_dtype a)
  | dask_array _ _ meta => ret meta
  | explicitly_indexed x => indexable_dtype x
  end.

(** [data.astype(dtype, copy=True)]: a new numpy array; on a dask array one
    more block function; explicitly indexed arrays have no such method. *)
Definition array_astype (data : array) (d : dtype) : M array :=
  match data with
  | np_ndarray l => l' <- astype l d ;; ret (np_ndarray l')
  | dask_array blocks graph _ =>
      ret (dask_array blocks (graph ++ [callable (fun l => astype l d)]) d)
  | explicitly_indexed _ => raise AttributeError
  end.

(** [data op= v]: in place on a numpy array, which stays the same object; a
    dask array has no in-place operators, the name is bound to a new dask
    array with one more block function (computed on a copy of the block). *)
Definition array_inplace (op : loc -> pyval -> M unit) (data : array) (v : pyval)
  : M array :=
  match data with
  | np_ndarray l => _ <- op l v ;; ret data
  | dask_array blocks graph meta =>
      ret (dask_array blocks
             (graph ++ [callable (fun l => l' <- astype l meta ;;
                                           _ <- op l' v ;; ret l')]) meta)
  | explicitly_indexed _ => raise TypeError
  end.

(** ** Variables and their metadata *)

(** [attrs] and [encoding]: dictionaries with string keys. *)
Abbreviation dict := (gmap string pyval).

(** [key in d] *)
Definition contains (d : dict) (key : string) : bool :=
  bool_decide (is_Some (d !! key)).

(** [d.get(key, default)] *)
Definition get (d : dict) (key : string) (default : pyval) : pyval :=
  match d !! key with Some v => v | None => default end.

(** [xarray.Variable] *)
Record xr_Variable := mkVariable {
  dims : list string;
  _data : array;
  attrs : dict;
  encoding : dict
}.

(** [Variable(dims, data, attrs, encoding, fastpath=True)]: a new
    Variable. *)
Definition new_Variable (dims : list string) (data : array) (attrs encoding : dict)
  : M xr_Variable :=
  _ <- emit NewVariable ;;
  ret (mkVariable dims data attrs encoding).

(** [unpack_for_decoding]: the payload as it is, and copies of the two
    dictionaries. *)
Definition unpack_for_decoding (var : xr_Variable)
  : list string * array * dict * dict :=
  (dims var, _data var, attrs var, encoding var).

(** The collision error of [safe_setitem]. *)
Definition overwrite_error : exn :=
  ValueError "failed to prevent overwriting existing key in attrs".

(** [safe_setitem]; the variable's name only enters the message and is
    left out. *)
Definition safe_setitem (dest : dict) (key : string) (value : pyval)
  : result dict :=
  if contains dest key then inl overwrite_error
  else inr (<[key := value]> dest).

(** [pop_to]: pops a key from [source] to [dest]. Both dictionaries are
    updated in place in the source; here the call returns them as it leaves
    them, [source] first, with the value or the exception. *)
Definition pop_to (source dest : dict) (key : string)
  : dict * dict * result pyval :=
  let value := get source key PNone in
  let source := delete key source in
  if is_not_None value then
    match safe_setitem dest key value with
    | inl e => (source, dest, inl e)
    | inr dest => (source, dest, inr value)
    end
  else (source, dest, inr value).

(** ** The float dtype policy *)

(** [_choose_float_dtype]: a float dtype that can losslessly represent
    [dtype] values. *)
Definition _choose_float_dtype : dtype -> bool -> dtype :=
  fun dtype has_offset =>
  if (itemsize dtype <=? 4) && issubdtype_floating dtype then float32
  else
    if (itemsize dtype <=? 2) && issubdtype_integer dtype then
      if negb has_offset then float32 else float64
    else float64.

(** ** Collaborators outside this module *)

(** The functions of [xarray.core] the coders call, whose sources are not
    part of this file: the [data] property of [Variable], and the functions
    used from [duck_array_ops] and [dtypes]. *)
Class XarrayCore := {
  (** [var.data] *)
  Variable_data : array -> M array;
  (** [duck_array_ops.allclose_or_equiv] *)
  allclose_or_equiv : pyval -> pyval -> bool;
  (** [duck_array_ops.fillna] *)
  fillna : array -> pyval -> M array;
  (** [duck_array_ops.around] *)
  around : array -> M array;
  (** [dtypes.maybe_promote]: the promoted dtype and its fill value *)
  maybe_promote : dtype -> dtype * scalar
}.

(** The truth value of a list: non-empty. *)
Definition truth {A : Type} (l : list A) : bool :=
  match l with [] => false | _ => true end.

(** A Python set of scalars, built from the elements in order: an element
    equal to one already present is dropped. *)
Definition set_of (xs : list scalar) : list scalar :=
  foldl (fun s x => if existsb (np.eqb x) s then s else s ++ [x]) [] xs.

(** [pd.isnull(value)] used as a condition: a scalar, or an array-like of
    at most one element; the truth value of a longer array is ambiguous. *)
Definition isnull (v : pyval) : result bool :=
  match np.ravel v with
  | [] => inr false
  | [x] => inr (np.isnull x)
  | _ => inl (ValueError "The truth value of an array is ambiguous")
  end.

(** [np.dtype(f"i{n}")] and [np.dtype(f"u{n}")]: integer dtypes exist for
    1, 2, 4 and 8 bytes. *)
Definition sized_dtype (k : dtype_kind) (n : Z) : result dtype :=
  if bool_decide (n = 1 \/ n = 2 \/ n = 4 \/ n = 8) then inr (Dtype k n)
  else inl TypeError.

Section coders.
Context {core : XarrayCore}.

(** [unpack_for_encoding]: as [unpack_for_decoding], with the payload read
    through the [data] property. *)
Definition unpack_for_encoding (var : xr_Variable)
  : M (list string * array * dict * dict) :=
  data <- Variable_data (_data var) ;;
  ret (dims var, data, attrs var, encoding var).

End coders.

(** ** CFMaskCoder: mask or unmask fill values according to CF conventions *)

Module CFMaskCoder.
Section coder.
Context {core : XarrayCore}.

(** The error raised for conflicting fill values. *)
Definition conflict_error : exn :=
  ValueError "Variable has conflicting _FillValue and missing_value. Cannot encode data.".

Definition encode (variable : xr_Variable) (name : option string) : M xr_Variable :=
  unpacked <- unpack_for_encoding variable ;;
  let '(dims, data, attrs, encoding) := unpacked in
  data_dtype <- array_dtype data ;;
  dtype <- lift (np.as_dtype (get encoding "dtype" (Scalar (SDtype data_dtype)))) ;;
  let fv := get encoding "_FillValue" PNone in
  let mv := get encoding "missing_value" PNone in
  if is_not_None fv && is_not_None mv && negb (allclose_or_equiv fv mv) then
    raise conflict_error
  else
    step <- (if is_not_None fv then
               (* Ensure _FillValue is cast to same dtype as data's *)
               cast_fv <- lift (np.dtype_type dtype fv) ;;
               let encoding := <["_FillValue" := cast_fv]> encoding in
               let '(encoding, attrs, fill_value) := pop_to encoding attrs "_FillValue" in
               fill_value <- lift fill_value ;;
               null <- lift (isnull fill_value) ;;
               data <- (if negb null then fillna data fill_value else ret data) ;;
               ret (data, attrs, encoding)
             else ret (data, attrs, encoding)) ;;
    let '(data, attrs, encoding) := step in
    step <- (if is_not_None mv then
               (* Ensure missing_value is cast to same dtype as data's *)
               cast_mv <- lift (np.dtype_type dtype mv) ;;
               let encoding := <["missing_value" := cast_mv]> encoding in
               let '(encoding, attrs, fill_value) := pop_to encoding attrs "missing_value" in
               fill_value <- lift fill_value ;;
               null <- lift (isnull fill_value) ;;
               data <- (if negb null && negb (is_not_None fv)
                        then fillna data fill_value else ret data) ;;
               ret (data, attrs, encoding)
             else ret (data, attrs, encoding)) ;;
    let '(data, attrs, encoding) := step in
    new_Variable dims data attrs encoding.

Definition decode (variable : xr_Variable) (name : option string) : M xr_Variable :=
  let '(dims, data, attrs, encoding) := unpack_for_decoding variable in
  (* raw_fill_values = [pop_to(attrs, encoding, attr, name=name)
                        for attr in ("missing_value", "_FillValue")] *)
  let '(attrs, encoding, missing_value) := pop_to attrs encoding "missing_value" in
  missing_value <- lift missing_value ;;
  let '(attrs, encoding, fill_value) := pop_to attrs encoding "_FillValue" in
  fill_value <- lift fill_value ;;
  let raw_fill_values := [missing_value; fill_value] in
  if truth raw_fill_values then
    let encoded_fill_values :=
      set_of (filter (fun fv => negb (np.isnull fv))
                (concat (map np.ravel raw_fill_values))) in
    _ <- (if (1 <? length encoded_fill_values)%nat
          then warn (MultipleFillValues name encoded_fill_values)
          else ret tt) ;;
    data_dtype <- array_dtype data ;;
    let '(dtype, decoded_fill_value) := maybe_promote data_dtype in
    data <- (if truth encoded_fill_values then
               let transform :=
                 partial_apply_mask encoded_fill_values decoded_fill_value dtype in
               lazy_elemwise_func data transform dtype
             else ret data) ;;
    new_Variable dims data attrs encoding
  else ret variable.

End coder.
End CFMaskCoder.

(** ** CFScaleOffsetCoder: scale and offset variables according to CF
    conventions, [decode_values = encoded_values * scale_factor + add_offset] *)

Module CFScaleOffsetCoder.
Section coder.
Context {core : XarrayCore}.

Definition encode (variable : xr_Variable) (name : option string) : M xr_Variable :=
  unpacked <- unpack_for_encoding variable ;;
  let '(dims, data, attrs, encoding) := unpacked in
  data <- (if contains encoding "scale_factor" || contains encoding "add_offset" then
             data_dtype <- array_dtype data ;;
             let dtype := _choose_float_dtype data_dtype (contains encoding "add_offset") in
             array_astype data dtype
           else ret data) ;;
  step <- (if contains encoding "add_offset" then
             let '(encoding, attrs, add_offset) := pop_to encoding attrs "add_offset" in
             add_offset <- lift add_offset ;;
             data <- array_inplace isub data add_offset ;;
             ret (data, attrs, encoding)
           else ret (data, attrs, encoding)) ;;
  let '(data, attrs, encoding) := step in
  step <- (if contains encoding "scale_factor" then
             let '(encoding, attrs, scale_factor) := pop_to encoding attrs "scale_factor" in
             scale_factor <- lift scale_factor ;;
             data <- array_inplace itruediv data scale_factor ;;
             ret (data, attrs, encoding)
           else ret (data, attrs, encoding)) ;;
  let '(data, attrs, encoding) := step in
  new_Variable dims data attrs encoding.

Definition decode (variable : xr_Variable) (name : option string) : M xr_Variable :=
  let _attrs := attrs variable in
  if contains _attrs "scale_factor" || contains _attrs "add_offset" then
    let '(dims, data, attrs, encoding) := unpack_for_decoding variable in
    let '(attrs, encoding, scale_factor) := pop_to attrs encoding "scale_factor" in
    scale_factor <- lift scale_factor ;;
    let '(attrs, encoding, add_offset) := pop_to attrs encoding "add_offset" in
    add_offset <- lift add_offset ;;
    data_dtype <- array_dtype data ;;
    let dtype := _choose_float_dtype data_dtype (contains encoding "add_offset") in
    scale_factor <- (if (0 <? np.ndim scale_factor)%nat
                     then lift (np.item scale_factor) else ret scale_factor) ;;
    add_offset <- (if (0 <? np.ndim add_offset)%nat
                   then lift (np.item add_offset) else ret add_offset) ;;
    let transform := partial_scale_offset_decoding scale_factor add_offset dtype in
    data <- lazy_elemwise_func data transform dtype ;;
    new_Variable dims data attrs encoding
  else ret variable.

End coder.
End CFScaleOffsetCoder.

(** ** UnsignedIntegerCoder *)

Module UnsignedIntegerCoder.
Section coder.
Context {core : XarrayCore}.

(** [if "_FillValue" in attrs: attrs["_FillValue"] = dtype.type(attrs["_FillValue"])] *)
Definition recast_fill (dtype : dtype) (attrs : dict) : M dict :=
  if contains attrs "_FillValue" then
    new_fill <- lift (np.dtype_type dtype (get attrs "_FillValue" PNone)) ;;
    ret (<["_FillValue" := new_fill]> attrs)
  else ret attrs.

Definition encode (variable : xr_Variable) (name : option string) : M xr_Variable :=
  if eq_str (get (encoding variable) "_Unsigned" (Scalar (SStr "false"))) "true" then
    unpacked <- unpack_for_encoding variable ;;
    let '(dims, data, attrs, encoding) := unpacked in
    let '(encoding, attrs, unsigned) := pop_to encoding attrs "_Unsigned" in
    _ <- lift unsigned ;;
    data_dtype <- array_dtype data ;;
    signed_dtype <- lift (sized_dtype kind_i (itemsize data_dtype)) ;;
    attrs <- recast_fill signed_dtype attrs ;;
    rounded <- around data ;;
    data <- array_astype rounded signed_dtype ;;
    new_Variable dims data attrs encoding
  else ret variable.

Definition decode (variable : xr_Variable) (name : option string) : M xr_Variable :=
  if contains (attrs variable) "_Unsigned" then
    let '(dims, data, attrs, encoding) := unpack_for_decoding variable in
    let '(attrs, encoding, unsigned) := pop_to attrs encoding "_Unsigned" in
    unsigned <- lift unsigned ;;
    data_dtype <- array_dtype data ;;
    step <- match kind data_dtype with
            | kind_i =>
                if eq_str unsigned "true" then
                  unsigned_dtype <- lift (sized_dtype kind_u (itemsize data_dtype)) ;;
                  let transform := partial_asarray unsigned_dtype in
                  data <- lazy_elemwise_func data transform unsigned_dtype ;;
                  attrs <- recast_fill unsigned_dtype attrs ;;
                  ret (data, attrs)
                else ret (data, attrs)
            | kind_u =>
                if eq_str unsigned "false" then
                  signed_dtype <- lift (sized_dtype kind_i (itemsize data_dtype)) ;;
                  let transform := partial_asarray signed_dtype in
                  data <- lazy_elemwise_func data transform signed_dtype ;;
                  attrs <- recast_fill signed_dtype attrs ;;
                  ret (data, attrs)
                else ret (data, attrs)
            | _ =>
                _ <- warn (UnsignedNotInteger name) ;;
                ret (data, attrs)
            end ;;
    let '(data, attrs) := step in
    new_Variable dims data attrs encoding
  else ret variable.

End coder.
End UnsignedIntegerCoder.

(** ** A reference implementation of the collaborators

    Used to run the coders on concrete variables. *)

Module reference.

(** Modelled from the spec: the [data] property of Variable
    ([xarray.core.variable] is not among the sources), for "an array-like
    data payload (possibly lazily evaluated or chunk-distributed)": a numpy
    or dask payload is handed out as it is, a lazily evaluated one is
    materialised. *)
Definition Variable_data (data : array) : M array :=
  match data with
  | explicitly_indexed x => l <- get_duck_array x ;; ret (np_ndarray l)
  | _ => ret data
  end.

(** Modelled from the spec: the "tolerance-equality" primitive
    ([duck_array_ops.allclose_or_equiv] is not among the sources): two
    elements are close when both are null or
    [|a - b| <= 1e-8 + 1e-5 * |b|]. *)
Definition isclose (a b : scalar) : bool :=
  let as_float x :=
    match x with
    | SInt z => Some (np.float_of_Z z)
    | SFloat f => Some f
    | _ => None
    end in
  (np.isnull a && np.isnull b) ||
  match as_float a, as_float b with
  | Some x, Some y =>
      PrimFloat.leb (abs (x - y)) (1 / 100000000 + (1 / 100000) * abs y)
  | _, _ => np.eqb a b
  end.

Definition allclose_or_equiv (a b : pyval) : bool :=
  bool_decide (length (np.ravel a) = length (np.ravel b)) &&
  forallb (fun p => isclose p.1 p.2) (zip (np.ravel a) (np.ravel b)).

(** Modelled from the spec: the "null-fill" primitive
    ([duck_array_ops.fillna] is not among the sources): a new array in
    which every null element is replaced by the value, converted to the
    array's dtype. *)
Definition fillna_ndarray (other : pyval) (l : loc) : M loc :=
  a <- read l ;;
  y <- lift (np.operand other) ;;
  y <- lift (np.cast (arr_dtype a) y) ;;
  alloc {| arr_dtype := arr_dtype a;
           arr_values := map (fun x => if np.isnull x then y else x) (arr_values a) |}.

Definition fillna (data : array) (other : pyval) : M array :=
  match data with
  | np_ndarray l => l' <- fillna_ndarray other l ;; ret (np_ndarray l')
  | dask_array blocks graph meta =>
      ret (dask_array blocks (graph ++ [callable (fillna_ndarray other)]) meta)
  | explicitly_indexed _ => raise TypeError
  end.

(** Rounding of a float to the nearest integer, ties to even. *)
Definition rint (f : float) : float :=
  let big := 4503599627370496%float in
  if PrimFloat.ltb (abs f) big then
    if PrimFloat.ltb f 0 then (- ((- f + big) - big))%float
    else ((f + big) - big)%float
  else f.

(** Modelled from the spec: the "rounding" primitive
    ([duck_array_ops.around] is not among the sources): a new array with
    every float rounded to the nearest integer, integers unchanged. *)
Definition around_ndarray (l : loc) : M loc :=
  a <- read l ;;
  alloc {| arr_dtype := arr_dtype a;
           arr_values :=
             map (fun x => match x with SFloat f => SFloat (rint f) | _ => x end)
               (arr_values a) |}.

Definition around (data : array) : M array :=
  match data with
  | np_ndarray l => l' <- around_ndarray l ;; ret (np_ndarray l')
  | dask_array blocks graph meta =>
      ret (dask_array blocks (graph ++ [callable around_ndarray]) meta)
  | explicitly_indexed _ => raise TypeError
  end.

(** Modelled from the spec: the "null-capable" variant of the dtype policy
    ([dtypes.maybe_promote] is not among the sources), which "returns the
    smallest float type that can represent the decoded value plus a null
    sentinel (NaN), promoting integer types to float": floats keep their
    dtype, integers of at most 2 bytes go to single precision, wider
    integers to double precision, anything else to object; the null value
    is NaN. *)
Definition maybe_promote (d : dtype) : dtype * scalar :=
  if issubdtype_floating d then (d, SFloat nan)
  else if issubdtype_integer d then
    (if itemsize d <=? 2 then float32 else float64, SFloat nan)
  else (object_, SFloat nan).

End reference.

Definition reference_core : XarrayCore :=
  {| Variable_data := reference.Variable_data;
     allclose_or_equiv := reference.allclose_or_equiv;
     fillna := reference.fillna;
     around := reference.around;
     maybe_promote := reference.maybe_promote |}.

(** The empty store. *)
Definition empty_state : state := State [] [].

(** ** What the transforms compute, as functions on array values

    The counterparts of the transforms above without the store: the array
    a transform returns as a function of the array it is given. They are
    what the store programs are compared with below. *)

Definition and_then {A B : Type} (r : result A) (f : A -> result B) : result B :=
  match r with
  | inl e => inl e
  | inr a => f a
  end.

(** The array converted to a dtype. *)
Definition cast_array (d : dtype) (a : ndarray) : result ndarray :=
  and_then (np.traverse (np.cast d) (arr_values a))
    (fun xs => inr {| arr_dtype := d; arr_values := xs |}).

(** The array after [data op= v]. *)
Definition arith_array (zop : option (Z -> Z -> Z)) (fop : float -> float -> float)
  (v : pyval) (a : ndarray) : result ndarray :=
  and_then (np.operand v) (fun y =>
  and_then (np.loop_for (arr_dtype a) zop v) (fun D =>
  and_then (np.traverse (fun x => np.arith (arr_dtype a) D zop fop x y) (arr_values a))
    (fun xs => inr {| arr_dtype := arr_dtype a; arr_values := xs |}))).



Definition scale_offset_decoding_value (scale_factor add_offset : pyval)
  (d : dtype) (a : ndarray) : result ndarray :=
  and_then (cast_array d a) (fun a =>
  and_then (if is_not_None scale_factor
            then arith_array (Some Z.mul) PrimFloat.mul scale_factor a
            else inr a) (fun a =>
  if is_not_None add_offset
  then arith_array (Some Z.add) PrimFloat.add add_offset a
  else inr a)).

(** A callable [f] is pure, with value function [g], when a call on any
    array of any store leaves every array of the store as it is (the store
    only grows), logs nothing, and returns an array holding [g] of the
    argument, or raises what [g] raises. *)
Definition pure_on (f : loc -> M loc) (g : ndarray -> result ndarray) : Prop :=
  forall (st : state) (l : loc) (a : ndarray), heap st !! l = Some a ->
    exists (r : result loc) (ext : list ndarray),
      f l st = (r, State (heap st ++ ext) (log st)) /\
      match g a with
      | inr b => exists l', r = inr l' /\ (heap st ++ ext) !! l' = Some b
      | inl e => r = inl e
      end.

(** The node materialised [n] times in a row: the arrays returned. *)
Fixpoint materialize_times (x : indexable) (n : nat) : M (list loc) :=
  match n with
  | O => ret []
  | S n' =>
      l <- get_duck_array x ;;
      ls <- materialize_times x n' ;;
      ret (l :: ls)
  end.

(** ** The scale/offset arithmetic, element by element

    What the specification says of one element, to be compared with what
    the coder computes array by array. *)


(** Decoding of one element: cast to the float dtype, then multiplied by
    [scale_factor] if present, then [add_offset] added if present. *)
Definition decode_element (d : dtype) (scale_factor add_offset : option pyval)
  (x : scalar) : result scalar :=
  and_then (np.cast d x) (fun x =>
  and_then (match scale_factor with
            | Some s => np.arith_with d (Some Z.mul) PrimFloat.mul s x
            | None => inr x
            end) (fun x =>
  match add_offset with
  | Some o => np.arith_with d (Some Z.add) PrimFloat.add o x
  | None => inr x
  end)).

(** A keyword argument of the decoding transform as a factor: none for
    [None]. *)
Definition factor (v : pyval) : option pyval :=
  if is_not_None v then Some v else None.

(** A factor that an array of dtype [d] can be combined with by an
    operator: it is a number or holds one number, and numpy has a loop for
    the two whose result can be stored into [d]. *)
Definition combines (d : dtype) (zop : option (Z -> Z -> Z)) (o : option pyval)
  : Prop :=
  match o with
  | None => True
  | Some v => exists y D, np.operand v = inr y /\ np.loop_for d zop v = inr D
  end.


(** One optional in-place step on the elements of an array of dtype [d]:
    the operator applied to every element when the factor is present. *)
Definition stage (d : dtype) (zop : option (Z -> Z -> Z))
  (fop : float -> float -> float) (o : option pyval) (xs : list scalar)
  : result (list scalar) :=
  match o with
  | Some v => np.traverse (np.arith_with d zop fop v) xs
  | None => inr xs
  end.

(** [dest] after the key was moved from [source]. *)
Definition moved (source dest : dict) (key : string) : dict :=
  match source !! key with
  | Some v => <[key := v]> dest
  | None => dest
  end.

(** The two steps of [CFScaleOffsetCoder.encode] that consume a key have
    one shape: [if key in encoding: data op= pop_to(encoding, attrs, key)]. *)
Definition inplace_step (op : loc -> pyval -> M unit) (key : string)
  (data : array) (attrs encoding : dict) : M (array * dict * dict) :=
  if contains encoding key then
    let '(encoding, attrs, v) := pop_to encoding attrs key in
    v <- lift v ;;
    data <- array_inplace op data v ;;
    ret (data, attrs, encoding)
  else ret (data, attrs, encoding).

(** The reduction [CFScaleOffsetCoder.decode] applies to a factor:
    [if np.ndim(v) > 0: v = np.asarray(v).item()]. *)
Definition reduce_factor (v : pyval) : result pyval :=
  if (0 <? np.ndim v)%nat then np.item v else inr v.

(** ** Concrete variables

    The variables of the examples: each comes with the store that holds
    its array. *)

Module examples.

(** Data [0, 10] to be encoded with [scale_factor = 2], [add_offset = 1]. *)
Definition physical : ndarray :=
  {| arr_dtype := int64; arr_values := [SInt 0; SInt 10] |}.

Definition scaled_encoding : dict :=
  <["scale_factor" := Scalar (SInt 2)]> (<["add_offset" := Scalar (SInt 1)]> ∅).

Definition to_scale : xr_Variable :=
  mkVariable ["x"] (np_ndarray 0%nat) ∅ scaled_encoding.

(** The raw values [-0.5, 4.5], to be decoded with the same factors. *)
Definition raw : ndarray :=
  {| arr_dtype := float64; arr_values := [SFloat (-0.5); SFloat 4.5] |}.


(** Data [1] with a zero-dimensional array as [scale_factor] in attrs. *)
Definition one : ndarray := {| arr_dtype := float64; arr_values := [SFloat 1] |}.

Definition zero_dim_scaled : xr_Variable :=
  mkVariable ["x"] (np_ndarray 0%nat)
    (<["scale_factor" := Array [] [SFloat 2]]> ∅) ∅.

(** The same with a one-dimensional array of one element. *)
Definition one_dim_scaled : xr_Variable :=
  mkVariable ["x"] (np_ndarray 0%nat)
    (<["scale_factor" := Array [1%nat] [SFloat 2]]> ∅) ∅.

(** int8 data [-1] and float32 data [1.5], each carrying an [_Unsigned]
    attribute. *)
Definition minus_one : ndarray := {| arr_dtype := int8; arr_values := [SInt (-1)] |}.

Definition signed_flagged_false : xr_Variable :=
  mkVariable ["x"] (np_ndarray 0%nat) (<["_Unsigned" := Scalar (SStr "false")]> ∅) ∅.

Definition signed_flagged_true : xr_Variable :=
  mkVariable ["x"] (np_ndarray 0%nat) (<["_Unsigned" := Scalar (SStr "true")]> ∅) ∅.

Definition single : ndarray :=
  {| arr_dtype := float32; arr_values := [SFloat 1.5] |}.

(** uint8 data [255], and a variable to be stored with [_Unsigned = "true"]
    in encoding. *)
Definition unsigned_byte : ndarray :=
  {| arr_dtype := uint8; arr_values := [SInt 255] |}.

Definition to_store : xr_Variable :=
  mkVariable ["x"] (np_ndarray 0%nat) ∅ (<["_Unsigned" := Scalar (SStr "true")]> ∅).

(** int16 data [1, 9999] with the sentinel 9999, given once in attrs and
    once in encoding. *)
Definition short : ndarray :=
  {| arr_dtype := int16; arr_values := [SInt 1; SInt 9999] |}.





(** float64 data [1.5] to be stored as int16, with a float sentinel. *)
Definition measured : ndarray :=
  {| arr_dtype := float64; arr_values := [SFloat 1.5] |}.

Definition to_mask : xr_Variable :=
  mkVariable ["x"] (np_ndarray 0%nat) ∅
    (<["dtype" := Scalar (SDtype int16)]>
       (<["_FillValue" := Scalar (SFloat (-1))]> ∅)).

(** A variable with conflicting sentinels, [_FillValue = 1] and
    [missing_value = 2], and one with equal sentinels. *)
Definition conflicting : xr_Variable :=
  mkVariable ["x"] (np_ndarray 0%nat) ∅
    (<["_FillValue" := Scalar (SInt 1)]>
       (<["missing_value" := Scalar (SInt 2)]> ∅)).

Definition agreeing : xr_Variable :=
  mkVariable ["x"] (np_ndarray 0%nat) ∅
    (<["_FillValue" := Scalar (SInt 1)]>
       (<["missing_value" := Scalar (SInt 1)]> ∅)).




(** A variable without any metadata. *)
Definition plain : xr_Variable := mkVariable ["x"] (np_ndarray 0%nat) ∅ ∅.

End examples.

(** A plain scalar, as opposed to an array of any dimension. *)
Definition is_plain_scalar (v : pyval) : bool :=
  match v with Scalar _ => true | Array _ _ => false end.

(** What the decoder makes of a factor: an array of one or more dimensions
    holding one element becomes that element, anything of dimension zero
    (a plain scalar, a zero-dimensional array) stays what it is. *)
Definition reduced (v v' : pyval) : Prop :=
  match v with
  | Scalar _ | Array [] _ => v' = v
  | Array (_ :: _) [x] => v' = Scalar x
  | Array (_ :: _) _ => False
  end.

(** The warnings among the events of a log. *)
Definition diagnostics (lg : list event) : list warning :=
  omap (fun e => match e with Warn w => Some w | _ => None end) lg.

(** [dest] after [pop_to] moved [key] from [source] without collision:
    only a value that is not [None] is inserted. *)
Definition received (source dest : dict) (key : string) : dict :=
  if is_not_None (get source key PNone)
  then <[key := get source key PNone]> dest
  else dest.

(** The sentinels [CFMaskCoder.decode] collects from a map: the elements of
    [missing_value] and [_FillValue], flattened, nulls discarded,
    deduplicated. *)
Definition sentinels (d : dict) : list scalar :=
  set_of (filter (fun fv => negb (np.isnull fv))
            (concat (map np.ravel [get d "missing_value" PNone;
                                   get d "_FillValue" PNone]))).


(** ** Values of the unsigned coder *)

(** An array of integers that fit the unsigned integer type of [n] bytes. *)
Definition unsigned_values (n : Z) (xs : list scalar) : Prop :=
  Forall (fun x => exists z, x = SInt z /\ 0 <= z < 2 ^ (8 * n)) xs.

(** The same values seen as signed integers of [n] bytes. *)
Definition signed_view (n : Z) (xs : list scalar) : list scalar :=
  map (fun x => match x with SInt z => SInt (np.wrap_signed n z) | _ => x end) xs.

(** ** Indexing and the transforms *)



(** ** Computations that leave the store alone *)

(** A computation that allocates and overwrites nothing, whatever it
    returns or raises. *)
Definition keeps_store {A : Type} (m : M A) : Prop :=
  forall st : state, heap (snd (m st)) = heap st.


(** * Properties *)

(** ** The metadata move primitive *)

Lemma contains_true (d : dict) (key : string) :
  contains d key = true <-> is_Some (d !! key).
Proof. unfold contains. apply bool_decide_eq_true. Qed.

Lemma contains_false (d : dict) (key : string) :
  contains d key = false <-> d !! key = None.
Proof.
  unfold contains. rewrite bool_decide_eq_false. symmetry. apply eq_None_not_Some.
Qed.

Lemma pop_to_absent (source dest : dict) (key : string) :
  source !! key = None ->
  pop_to source dest key = (source, dest, inr PNone).
Proof.
  intros Habsent. unfold pop_to, get. rewrite Habsent. simpl.
  by rewrite delete_id.
Qed.

Lemma pop_to_None (source dest : dict) (key : string) :
  source !! key = Some PNone ->
  pop_to source dest key = (delete key source, dest, inr PNone).
Proof. intros Hnone. unfold pop_to, get. by rewrite Hnone. Qed.

Lemma pop_to_moved (source dest : dict) (key : string) (value : pyval) :
  source !! key = Some value -> is_not_None value = true -> dest !! key = None ->
  pop_to source dest key = (delete key source, <[key := value]> dest, inr value).
Proof.
  intros Hvalue Hnot Hfree. unfold pop_to, get, safe_setitem.
  rewrite Hvalue, Hnot. by rewrite (proj2 (contains_false dest key) Hfree).
Qed.

(** [pop_to] when no collision can occur. *)
Lemma pop_to_ok (source dest : dict) (key : string) :
  (is_not_None (get source key PNone) = true -> dest !! key = None) ->
  pop_to source dest key
  = (delete key source, received source dest key, inr (get source key PNone)).
Proof.
  intros Hfree. unfold pop_to, received, safe_setitem.
  destruct (is_not_None _); [|done].
  by rewrite (proj2 (contains_false dest key) (Hfree eq_refl)).
Qed.

Lemma received_delete_ne (source dest : dict) (key key' : string) :
  key <> key' ->
  received (delete key' source) dest key = received source dest key.
Proof.
  intros Hne. unfold received, get. by rewrite lookup_delete_ne.
Qed.

Lemma received_lookup_ne (source dest : dict) (key key' : string) :
  key <> key' -> received source dest key !! key' = dest !! key'.
Proof.
  intros Hne. unfold received. destruct (is_not_None _); [|done].
  by rewrite lookup_insert_ne.
Qed.

Lemma pop_to_collision (source dest : dict) (key : string) (value : pyval) :
  source !! key = Some value -> is_not_None value = true -> is_Some (dest !! key) ->
  pop_to source dest key = (delete key source, dest, inl overwrite_error).
Proof.
  intros Hvalue Hnot Hheld. unfold pop_to, get, safe_setitem.
  rewrite Hvalue, Hnot. by rewrite (proj2 (contains_true dest key) Hheld).
Qed.

(** C6. The metadata move primitive [pop_to], for every source map,
    destination map and key: a key absent from the source gives [None] and
    changes neither map; a key present is removed from the source, whatever
    happens next; a value that is not [None] is inserted into the
    destination when the destination does not hold the key, and the call
    fails with the collision error of [safe_setitem], the destination
    unchanged, when it does; a [None] value is removed from the source
    without being inserted and without error. *)
Theorem pop_to_moves_key (source dest : dict) (key : string) :
  (source !! key = None ->
     pop_to source dest key = (source, dest, inr PNone)) /\
  (forall value, source !! key = Some value ->
     (pop_to source dest key).1.1 = delete key source /\
     (pop_to source dest key).1.1 !! key = None) /\
  (forall value, source !! key = Some value -> is_not_None value = true ->
     (dest !! key = None ->
        pop_to source dest key
        = (delete key source, <[key := value]> dest, inr value)) /\
     (is_Some (dest !! key) ->
        pop_to source dest key = (delete key source, dest, inl overwrite_error))) /\
  (source !! key = Some PNone ->
     pop_to source dest key = (delete key source, dest, inr PNone)).
Proof.
  split; [apply pop_to_absent|].
  split.
  { intros value Hvalue.
    assert ((pop_to source dest key).1.1 = delete key source) as Hsrc.
    { unfold pop_to. destruct (is_not_None _); [|done].
      by destruct (safe_setitem _ _ _). }
    split; [done|]. rewrite Hsrc. apply lookup_delete_eq. }
  split; [|apply pop_to_None].
  intros value Hvalue Hnot. split.
  - by apply pop_to_moved.
  - by apply (pop_to_collision source dest key value).
Qed.

(** ** The float dtype policy *)

(** C4. [_choose_float_dtype], for every storage dtype and offset flag:
    (a) a floating-point dtype of at most 4 bytes gives single precision;
    (b) an integer dtype (signed or unsigned) of at most 2 bytes with no
    offset gives single precision; (c) every other combination gives double
    precision; in particular int8 with an offset gives double precision. *)
Theorem choose_float_dtype_policy (d : dtype) (has_offset : bool) :
  (issubdtype_floating d = true -> itemsize d <= 4 ->
     _choose_float_dtype d has_offset = float32) /\
  (issubdtype_integer d = true -> itemsize d <= 2 -> has_offset = false ->
     _choose_float_dtype d has_offset = float32) /\
  (~ (issubdtype_floating d = true /\ itemsize d <= 4) ->
   ~ (issubdtype_integer d = true /\ itemsize d <= 2 /\ has_offset = false) ->
     _choose_float_dtype d has_offset = float64) /\
  _choose_float_dtype int8 true = float64 /\
  _choose_float_dtype int8 true <> float32.
Proof.
  unfold _choose_float_dtype.
  repeat split; try done.
  - intros Hf Hsize. rewrite Hf.
    by rewrite (proj2 (Z.leb_le _ _) Hsize).
  - intros Hi Hsize ->. rewrite Hi.
    assert (issubdtype_floating d = false) as ->.
    { unfold issubdtype_floating, issubdtype_integer in *.
      by destruct (kind d). }
    rewrite andb_false_r.
    by rewrite (proj2 (Z.leb_le _ _) Hsize).
  - intros Hnf Hni.
    destruct (itemsize d <=? 4) eqn:H4, (issubdtype_floating d) eqn:Hf; simpl.
    + exfalso. apply Hnf. split; [done|]. by apply Z.leb_le.
    + destruct (itemsize d <=? 2) eqn:H2, (issubdtype_integer d) eqn:Hi; simpl;
        try done.
      destruct has_offset; [done|].
      exfalso. apply Hni. repeat split; try done. by apply Z.leb_le.
    + destruct (itemsize d <=? 2) eqn:H2; [|by rewrite andb_false_l].
      apply Z.leb_le in H2. apply Z.leb_gt in H4. lia.
    + destruct (itemsize d <=? 2) eqn:H2; [|by rewrite andb_false_l].
      apply Z.leb_le in H2. apply Z.leb_gt in H4. lia.
Qed.

(** ** The store *)

Lemma state_eta (st : state) : State (heap st) (log st) = st.
Proof. by destruct st. Qed.

Lemma bind_ok {A B : Type} (m : M A) (k : A -> M B) (st st' : state) (a : A) :
  m st = (inr a, st') -> bind m k st = k a st'.
Proof. intros Hm. unfold bind. by rewrite Hm. Qed.

Lemma bind_raise {A B : Type} (m : M A) (k : A -> M B) (st st' : state) (e : exn) :
  m st = (inl e, st') -> bind m k st = (inl e, st').
Proof. intros Hm. unfold bind. by rewrite Hm. Qed.

Lemma read_ok (st : state) (l : loc) (a : ndarray) :
  heap st !! l = Some a -> read l st = (inr a, st).
Proof. intros Hl. unfold read. by rewrite Hl. Qed.

Lemma lookup_new {A : Type} (h : list A) (a : A) : (h ++ [a]) !! length h = Some a.
Proof. rewrite lookup_app_r by lia. by rewrite Nat.sub_diag. Qed.

Lemma insert_new {A : Type} (h : list A) (a b : A) :
  <[length h := b]> (h ++ [a]) = h ++ [b].
Proof. rewrite insert_app_r_alt by lia. by rewrite Nat.sub_diag. Qed.

(** [astype] allocates the converted array and touches nothing else. *)
Lemma astype_eq (st : state) (l : loc) (a : ndarray) (d : dtype) :
  heap st !! l = Some a ->
  astype l d st =
    match cast_array d a with
    | inl e => (inl e, st)
    | inr b => (inr (length (heap st)), State (heap st ++ [b]) (log st))
    end.
Proof.
  intros Hl. unfold astype, cast_array.
  rewrite (bind_ok _ _ _ _ _ (read_ok _ _ _ Hl)).
  unfold bind, lift, and_then.
  by destruct (np.traverse _ _).
Qed.

(** An in-place operator on the array allocated last overwrites it. *)
Lemma inplace_last_eq zop fop (h : list ndarray) (lg : list event)
  (a : ndarray) (v : pyval) :
  inplace zop fop (length h) v (State (h ++ [a]) lg) =
    match arith_array zop fop v a with
    | inl e => (inl e, State (h ++ [a]) lg)
    | inr b => (inr tt, State (h ++ [b]) lg)
    end.
Proof.
  unfold inplace, arith_array.
  rewrite (bind_ok _ _ _ (State (h ++ [a]) lg) a) by (apply read_ok, lookup_new).
  unfold bind, lift, and_then, write. simpl.
  destruct (np.operand v); [done|].
  destruct (np.loop_for _ _ _); [done|].
  destruct (np.traverse _ _); [done|].
  by rewrite insert_new.
Qed.

Lemma asarray_eq (st : state) (l : loc) (a : ndarray) (d : dtype) :
  heap st !! l = Some a ->
  asarray l d st =
    if decide (arr_dtype a = d) then (inr l, st)
    else match cast_array d a with
         | inl e => (inl e, st)
         | inr b => (inr (length (heap st)), State (heap st ++ [b]) (log st))
         end.
Proof.
  intros Hl. unfold asarray.
  rewrite (bind_ok _ _ _ _ _ (read_ok _ _ _ Hl)).
  destruct (decide _); [done|]. by apply astype_eq.
Qed.

(** ** The transforms are pure *)


Lemma scale_offset_decoding_pure (scale_factor add_offset : pyval) (d : dtype) :
  pure_on (fun l => _scale_offset_decoding l scale_factor add_offset d)
    (scale_offset_decoding_value scale_factor add_offset d).
Proof.
  intros st l a Hl.
  unfold _scale_offset_decoding, scale_offset_decoding_value.
  unfold bind at 1. rewrite (astype_eq _ _ _ _ Hl).
  destruct (cast_array d a) as [e|a1]; simpl.
  { exists (inl e), []. by rewrite app_nil_r, state_eta. }
  assert (forall b, (heap st ++ [b]) !! length (heap st) = Some b) as Hnew
    by (intros; apply lookup_new).
  destruct (is_not_None scale_factor).
  - unfold bind at 1, imul. rewrite inplace_last_eq.
    destruct (arith_array _ _ scale_factor a1) as [e|a2]; simpl.
    { by exists (inl e), [a1]. }
    destruct (is_not_None add_offset).
    + unfold bind at 1, iadd. rewrite inplace_last_eq.
      destruct (arith_array _ _ add_offset a2) as [e|a3]; simpl.
      { by exists (inl e), [a2]. }
      exists (inr (length (heap st))), [a3]. eauto.
    + exists (inr (length (heap st))), [a2]. eauto.
  - unfold bind at 1, ret at 1. cbn [and_then].
    destruct (is_not_None add_offset).
    + unfold bind at 1, iadd. rewrite inplace_last_eq.
      destruct (arith_array _ _ add_offset a1) as [e|a3]; simpl.
      { by exists (inl e), [a1]. }
      exists (inr (length (heap st))), [a3]. eauto.
    + exists (inr (length (heap st))), [a1]. eauto.
Qed.



(** ** Lazy elementwise transform nodes *)

Section lazy_node.
Variables (f : loc -> M loc) (g : ndarray -> result ndarray) (d : dtype).
Hypothesis f_pure : pure_on f g.

(** One materialisation: the function applied to the source array. *)
Lemma get_duck_array_node (st : state) (l : loc) (a b : ndarray) :
  heap st !! l = Some a -> g a = inr b ->
  exists (l' : loc) (ext : list ndarray),
    get_duck_array (_ElementwiseFunctionArray (NumpyIndexingAdapter l) (callable f) d) st
    = (inr l', State (heap st ++ ext) (log st)) /\
    (heap st ++ ext) !! l' = Some b.
Proof.
  intros Hl Hg. destruct (f_pure st l a Hl) as (r & ext & Hf & Hr).
  rewrite Hg in Hr. destruct Hr as (l' & -> & Hl').
  exists l', ext. split; [|done]. simpl. unfold bind, ret. exact Hf.
Qed.

Lemma materialize_times_node (n : nat) (st : state) (l : loc) (a b : ndarray) :
  heap st !! l = Some a -> g a = inr b ->
  exists (ls : list loc) (ext : list ndarray),
    materialize_times
      (_ElementwiseFunctionArray (NumpyIndexingAdapter l) (callable f) d) n st
    = (inr ls, State (heap st ++ ext) (log st)) /\
    length ls = n /\
    Forall (fun l' => (heap st ++ ext) !! l' = Some b) ls.
Proof.
  revert st. induction n as [|n IH]; intros st Hl Hg.
  - exists [], []. simpl. unfold ret. by rewrite app_nil_r, state_eta.
  - destruct (get_duck_array_node st l a b Hl Hg) as (l1 & ext1 & Hrun & Hl1).
    set (st1 := State (heap st ++ ext1) (log st)) in *.
    assert (heap st1 !! l = Some a) as Hl' by (by apply lookup_app_l_Some).
    destruct (IH st1 Hl' Hg) as (ls & ext2 & Hrest & Hlen & Hall).
    exists (l1 :: ls), (ext1 ++ ext2).
    cbn [materialize_times].
    rewrite (bind_ok _ _ _ _ _ Hrun), (bind_ok _ _ _ _ _ Hrest).
    simpl. rewrite <- app_assoc. split; [done|]. split; [by rewrite Hlen|].
    rewrite app_assoc. constructor; [|done].
    by apply lookup_app_l_Some.
Qed.

Lemma getitem_node (st : state) (l : loc) (a b : ndarray) (key : list nat) :
  heap st !! l = Some a -> take a key = inr b ->
  getitem (_ElementwiseFunctionArray (NumpyIndexingAdapter l) (callable f) d) key st
  = (inr (_ElementwiseFunctionArray
            (NumpyIndexingAdapter (length (heap st))) (callable f) d),
     State (heap st ++ [b]) (log st ++ [NewElementwiseFunctionArray])).
Proof.
  intros Hl Htake. cbn [getitem].
  unfold bind at 1. unfold bind at 1.
  rewrite (read_ok _ _ _ Hl). unfold lift. by rewrite Htake.
Qed.

End lazy_node.

(** C9. A lazy elementwise transform node built by [lazy_elemwise_func]
    from a source array [a] (a numpy array of the store), a pure function
    [f] and a declared dtype [d]: its dtype is [d] without any
    materialisation; sub-indexing it with a key [k] gives a new node over
    the indexed array [a[k]] with the same [f] and [d], and materialising
    [node[k]] gives [f] applied to the indexed source; materialising the
    node any number of times gives the same output [f(a)] each time, and
    leaves the source array, like every array that was in the store, as it
    was. *)
Theorem lazy_node_indexing_and_materialization
  (f : loc -> M loc) (g : ndarray -> result ndarray) (d : dtype)
  (st : state) (l : loc) (a : ndarray) :
  pure_on f g ->
  heap st !! l = Some a ->
  let node := _ElementwiseFunctionArray (NumpyIndexingAdapter l) (callable f) d in
  lazy_elemwise_func (np_ndarray l) (callable f) d st
  = (inr (explicitly_indexed node),
     State (heap st) (log st ++ [NewElementwiseFunctionArray])) /\
  indexable_dtype node st = (inr d, st) /\
  (forall (key : list nat) (b : ndarray), take a key = inr b ->
     exists (sub : loc) (st' : state),
       getitem node key st
       = (inr (_ElementwiseFunctionArray (NumpyIndexingAdapter sub) (callable f) d), st') /\
       heap st' !! sub = Some b /\
       heap st' !! l = Some a /\
       forall c : ndarray, g b = inr c ->
         exists (out : loc) (st'' : state),
           get_duck_array
             (_ElementwiseFunctionArray (NumpyIndexingAdapter sub) (callable f) d) st'
           = (inr out, st'') /\
           heap st'' !! out = Some c /\
           heap st'' !! l = Some a) /\
  (forall (n : nat) (b : ndarray), g a = inr b ->
     exists (outs : list loc) (st' : state),
       materialize_times node n st = (inr outs, st') /\
       length outs = n /\
       Forall (fun out => heap st' !! out = Some b) outs /\
       heap st' !! l = Some a /\
       (forall (l0 : loc) (a0 : ndarray),
          heap st !! l0 = Some a0 -> heap st' !! l0 = Some a0) /\
       log st' = log st).
Proof.
  intros Hpure Hl node. split; [done|]. split; [done|]. split.
  - intros key b Htake.
    exists (length (heap st)),
      (State (heap st ++ [b]) (log st ++ [NewElementwiseFunctionArray])).
    split; [by apply (getitem_node f d st l a b key)|].
    split; [apply lookup_new|].
    split; [by apply lookup_app_l_Some|].
    intros c Hg.
    destruct (get_duck_array_node f g d Hpure
                (State (heap st ++ [b]) (log st ++ [NewElementwiseFunctionArray]))
                (length (heap st)) b c) as (out & ext & Hrun & Hout);
      [apply lookup_new|done|].
    eexists out, _. split; [exact Hrun|]. split; [done|].
    simpl. by do 2 apply lookup_app_l_Some.
  - intros n b Hg.
    destruct (materialize_times_node f g d Hpure n st l a b Hl Hg)
      as (outs & ext & Hrun & Hlen & Hall).
    eexists outs, _. split; [exact Hrun|]. split; [done|]. split; [done|].
    split; [by apply lookup_app_l_Some|]. split; [|done].
    intros l0 a0 Hl0. by apply lookup_app_l_Some.
Qed.

(** The theorem at a concrete node: int16 data [1, 9999] behind the
    scale/offset transform with [scale_factor = 2], [add_offset = 1] and
    dtype float64, which multiplies and adds in place on a copy. Two
    materialisations both give [3, 19999] and the source still holds
    [1, 9999]. *)
Lemma lazy_node_witness :
  let a := {| arr_dtype := int16; arr_values := [SInt 1; SInt 9999] |} in
  let b := {| arr_dtype := float64; arr_values := [SFloat 3; SFloat 19999] |} in
  let st := State [a] [] in
  let f := fun l => _scale_offset_decoding l (Scalar (SFloat 2)) (Scalar (SFloat 1)) float64 in
  let node := _ElementwiseFunctionArray (NumpyIndexingAdapter 0%nat) (callable f) float64 in
  exists (outs : list loc) (st' : state),
    materialize_times node 2 st = (inr outs, st') /\
    length outs = 2%nat /\
    Forall (fun out => heap st' !! out = Some b) outs /\
    heap st' !! 0%nat = Some a.
Proof.
  intros a b st f node.
  destruct (lazy_node_indexing_and_materialization f
              (scale_offset_decoding_value (Scalar (SFloat 2)) (Scalar (SFloat 1)) float64)
              float64 st 0%nat a
              (scale_offset_decoding_pure _ _ _) eq_refl)
    as (_ & _ & _ & Hrepeat).
  destruct (Hrepeat 2%nat b) as (outs & st' & Hrun & Hlen & Hall & Hsrc & _).
  { vm_compute. reflexivity. }
  exists outs, st'. repeat split; assumption.
Defined.

(** ** Traversals *)

Lemma traverse_and_then {A B C : Type} (f : A -> result B) (g : B -> result C)
  (xs : list A) (zs : list C) :
  np.traverse (fun x => and_then (f x) g) xs = inr zs <->
  exists ys, np.traverse f xs = inr ys /\ np.traverse g ys = inr zs.
Proof.
  revert zs. induction xs as [|x xs IH]; intros zs; simpl.
  - split.
    + intros [= <-]. by exists [].
    + by intros (ys & [= <-] & [= <-]).
  - destruct (f x) as [e|y]; simpl.
    { split; [done|]. by intros (ys & [=] & _). }
    destruct (g y) as [e|z] eqn:Hg.
    { split; [done|]. intros (ys & Hys & Hzs).
      destruct (np.traverse f xs); [done|]. injection Hys as <-.
      simpl in Hzs. by rewrite Hg in Hzs. }
    destruct (np.traverse (fun x => and_then (f x) g) xs) as [e|zs'] eqn:Hrec.
    + split; [done|]. intros (ys & Hys & Hzs).
      destruct (np.traverse f xs) as [e'|ys'] eqn:Hf; [done|].
      injection Hys as <-. simpl in Hzs. rewrite Hg in Hzs.
      destruct (np.traverse g ys') as [e'|zs''] eqn:Hg'; [done|].
      assert (inl e = inr zs'') as [=]. { apply IH. by exists ys'. }
    + destruct (proj1 (IH zs') eq_refl) as (ys' & Hf & Hg').
      rewrite Hf. split.
      * intros [= <-]. exists (y :: ys'). split; [done|]. simpl.
        by rewrite Hg, Hg'.
      * intros (ys & [= <-] & Hzs). simpl in Hzs.
        rewrite Hg, Hg' in Hzs. by injection Hzs as <-.
Qed.

Lemma traverse_id {A : Type} (xs : list A) :
  np.traverse (fun x => inr x) xs = inr xs.
Proof. induction xs as [|x xs IH]; simpl; [done|]. by rewrite IH. Qed.

Lemma traverse_ext {A B : Type} (f g : A -> result B) (xs : list A) :
  (forall x, f x = g x) -> np.traverse f xs = np.traverse g xs.
Proof.
  intros Hfg. induction xs as [|x xs IH]; simpl; [done|]. by rewrite Hfg, IH.
Qed.


Lemma decode_stages (d : dtype) (sf ao : option pyval) (xs ys : list scalar) :
  np.traverse (decode_element d sf ao) xs = inr ys <->
  exists xs1 xs2,
    np.traverse (np.cast d) xs = inr xs1 /\
    stage d (Some Z.mul) PrimFloat.mul sf xs1 = inr xs2 /\
    stage d (Some Z.add) PrimFloat.add ao xs2 = inr ys.
Proof.
  unfold decode_element, stage. rewrite traverse_and_then.
  split.
  - intros (xs1 & Hcast & Hrest). apply traverse_and_then in Hrest.
    destruct Hrest as (xs2 & Hmul & Hadd). exists xs1, xs2.
    split; [done|]. split.
    + destruct sf; [done|]. by rewrite traverse_id in Hmul.
    + destruct ao; [done|]. by rewrite traverse_id in Hadd.
  - intros (xs1 & xs2 & Hcast & Hmul & Hadd). exists xs1. split; [done|].
    apply traverse_and_then. exists xs2. split.
    + destruct sf; [done|]. by rewrite traverse_id.
    + destruct ao; [done|]. by rewrite traverse_id.
Qed.

(** An in-place operator with a factor the array combines with applies the
    operator to every element. *)
Lemma arith_array_with zop fop (v : pyval) (a : ndarray) :
  combines (arr_dtype a) zop (Some v) ->
  arith_array zop fop v a
  = and_then (np.traverse (np.arith_with (arr_dtype a) zop fop v) (arr_values a))
      (fun xs => inr {| arr_dtype := arr_dtype a; arr_values := xs |}).
Proof.
  intros (y & D & Hop & HD). unfold arith_array. rewrite Hop, HD. cbn [and_then].
  rewrite (traverse_ext (np.arith_with (arr_dtype a) zop fop v)
             (fun x => np.arith (arr_dtype a) D zop fop x y)); [done|].
  intros x. unfold np.arith_with. by rewrite Hop, HD.
Qed.

(** One optional in-place step of the decoding transform on the values. *)
Lemma arith_array_stage zop fop (v : pyval) (d : dtype) (xs ys : list scalar) :
  combines d zop (factor v) ->
  stage d zop fop (factor v) xs = inr ys ->
  (if is_not_None v
   then arith_array zop fop v {| arr_dtype := d; arr_values := xs |}
   else inr {| arr_dtype := d; arr_values := xs |})
  = inr {| arr_dtype := d; arr_values := ys |}.
Proof.
  unfold factor, stage. destruct (is_not_None v).
  - intros Hok Hys.
    rewrite (arith_array_with zop fop v {| arr_dtype := d; arr_values := xs |} Hok).
    cbn [arr_dtype arr_values]. by rewrite Hys.
  - by intros _ [= <-].
Qed.

(** The decoding transform computes the decoded elements. *)
Lemma scale_offset_decoding_value_elements (scale_factor add_offset : pyval)
  (d : dtype) (a : ndarray) (ys : list scalar) :
  combines d (Some Z.mul) (factor scale_factor) ->
  combines d (Some Z.add) (factor add_offset) ->
  np.traverse (decode_element d (factor scale_factor) (factor add_offset))
    (arr_values a) = inr ys ->
  scale_offset_decoding_value scale_factor add_offset d a
  = inr {| arr_dtype := d; arr_values := ys |}.
Proof.
  intros Hsf Hao Hys. apply decode_stages in Hys.
  destruct Hys as (xs1 & xs2 & Hcast & Hmul & Hadd).
  unfold scale_offset_decoding_value, cast_array. rewrite Hcast. cbn [and_then].
  rewrite (arith_array_stage _ _ _ _ _ _ Hsf Hmul). cbn [and_then].
  exact (arith_array_stage _ _ _ _ _ _ Hao Hadd).
Qed.

(** ** CFScaleOffsetCoder *)




Section scale_offset.
Context {core : XarrayCore}.

Lemma scale_offset_encode_unfold (variable : xr_Variable) (name : option string) :
  CFScaleOffsetCoder.encode variable name =
  (unpacked <- unpack_for_encoding variable ;;
   let '(dims, data, attrs, encoding) := unpacked in
   data <- (if contains encoding "scale_factor" || contains encoding "add_offset" then
              data_dtype <- array_dtype data ;;
              array_astype data
                (_choose_float_dtype data_dtype (contains encoding "add_offset"))
            else ret data) ;;
   step <- inplace_step isub "add_offset" data attrs encoding ;;
   let '(data, attrs, encoding) := step in
   step <- inplace_step itruediv "scale_factor" data attrs encoding ;;
   let '(data, attrs, encoding) := step in
   new_Variable dims data attrs encoding).
Proof. reflexivity. Qed.


End scale_offset.



Section scale_offset_decode.
Context {core : XarrayCore}.

(** Decoding of a variable whose payload is a numpy array: the new
    Variable holds a lazy node over the same array. *)
Lemma scale_offset_decode_numpy (v : xr_Variable) (name : option string)
  (st : state) (l : loc) (a : ndarray)
  (attrs1 encoding1 attrs2 encoding2 : dict) (sf ao sf' ao' : pyval) :
  contains (attrs v) "scale_factor" || contains (attrs v) "add_offset" = true ->
  _data v = np_ndarray l ->
  heap st !! l = Some a ->
  pop_to (attrs v) (encoding v) "scale_factor" = (attrs1, encoding1, inr sf) ->
  pop_to attrs1 encoding1 "add_offset" = (attrs2, encoding2, inr ao) ->
  reduce_factor sf = inr sf' ->
  reduce_factor ao = inr ao' ->
  CFScaleOffsetCoder.decode v name st =
  (inr (mkVariable (dims v)
          (explicitly_indexed
             (_ElementwiseFunctionArray (NumpyIndexingAdapter l)
                (partial_scale_offset_decoding sf' ao'
                   (_choose_float_dtype (arr_dtype a) (contains encoding2 "add_offset")))
                (_choose_float_dtype (arr_dtype a) (contains encoding2 "add_offset"))))
          attrs2 encoding2),
   State (heap st) (log st ++ [NewElementwiseFunctionArray; NewVariable])).
Proof.
  intros Hany Hdata Hl Hsf Hao Hsf' Hao'.
  unfold CFScaleOffsetCoder.decode. rewrite Hany.
  unfold unpack_for_decoding. rewrite Hsf.
  unfold bind at 1, lift at 1. rewrite Hao.
  unfold bind at 1, lift at 1. rewrite Hdata. cbn [array_dtype].
  unfold bind at 1. rewrite (bind_ok _ _ _ _ _ (read_ok _ _ _ Hl)). unfold ret at 1.
  unfold reduce_factor in Hsf', Hao'.
  unfold bind at 1.
  assert ((if (0 <? np.ndim sf)%nat then lift (np.item sf) else ret sf) st
          = (inr sf', st)) as ->.
  { destruct (0 <? np.ndim sf)%nat; unfold lift, ret; by rewrite ?Hsf'; simplify_eq. }
  unfold bind at 1.
  assert ((if (0 <? np.ndim ao)%nat then lift (np.item ao) else ret ao) st
          = (inr ao', st)) as ->.
  { destruct (0 <? np.ndim ao)%nat; unfold lift, ret; by rewrite ?Hao'; simplify_eq. }
  unfold lazy_elemwise_func, new_ElementwiseFunctionArray, new_Variable.
  unfold bind, emit, ret. simpl. by rewrite <- app_assoc.
Qed.


End scale_offset_decode.




Lemma reduced_reduce_factor (v v' : pyval) :
  reduced v v' -> reduce_factor v = inr v'.
Proof.
  unfold reduced, reduce_factor. destruct v as [x|[|n shape] xs]; simpl.
  - by intros ->.
  - by intros ->.
  - destruct xs as [|x [|x' xs]]; try done. by intros ->.
Qed.

(** C8, as stated, fails: a zero-dimensional array given as [scale_factor]
    reaches the transform as the array it is, not as a plain scalar. *)
Lemma zero_dim_factor_not_reduced :
  attrs examples.zero_dim_scaled !! "scale_factor" = Some (Array [] [SFloat 2]) /\
  np.ndim (Array [] [SFloat 2]) = 0%nat /\
  ~ (exists (v' : xr_Variable) (st' : state) (source : indexable)
            (scale_factor add_offset : pyval) (d : dtype),
       CFScaleOffsetCoder.decode examples.zero_dim_scaled None
         (State [examples.one] []) = (inr v', st') /\
       _data v'
       = explicitly_indexed
           (_ElementwiseFunctionArray source
              (partial_scale_offset_decoding scale_factor add_offset d) d) /\
       is_plain_scalar scale_factor = true).
Proof.
  split; [reflexivity|]. split; [reflexivity|].
  intros (v' & st' & source & sf & ao & d & Hrun & Hdata & Hplain).
  vm_compute in Hrun. injection Hrun as <- <-.
  simpl in Hdata. injection Hdata as <- <- <- <-. discriminate Hplain.
Qed.

(** C8, amended. Scale/offset decode hands to the lazy transform the
    factors reduced as follows: a [scale_factor] or [add_offset] of one or
    more dimensions holding one element is replaced by that element as a
    plain scalar; a value of dimension zero, a zero-dimensional array
    included, is passed as it is. *)
Theorem scale_offset_decode_reduces_factors (v : xr_Variable)
  (name : option string) (st : state) (l : loc) (a : ndarray)
  (attrs1 encoding1 attrs2 encoding2 : dict) (sf ao sf' ao' : pyval) :
  contains (attrs v) "scale_factor" || contains (attrs v) "add_offset" = true ->
  _data v = np_ndarray l ->
  heap st !! l = Some a ->
  pop_to (attrs v) (encoding v) "scale_factor" = (attrs1, encoding1, inr sf) ->
  pop_to attrs1 encoding1 "add_offset" = (attrs2, encoding2, inr ao) ->
  reduced sf sf' ->
  reduced ao ao' ->
  CFScaleOffsetCoder.decode v name st =
  (inr (mkVariable (dims v)
          (explicitly_indexed
             (_ElementwiseFunctionArray (NumpyIndexingAdapter l)
                (partial_scale_offset_decoding sf' ao'
                   (_choose_float_dtype (arr_dtype a) (contains encoding2 "add_offset")))
                (_choose_float_dtype (arr_dtype a) (contains encoding2 "add_offset"))))
          attrs2 encoding2),
   State (heap st) (log st ++ [NewElementwiseFunctionArray; NewVariable])) /\
  (forall shape x, sf = Array shape [x] -> (0 < length shape)%nat ->
     sf' = Scalar x /\ is_plain_scalar sf' = true) /\
  (forall xs, sf = Array [] xs -> sf' = sf /\ is_plain_scalar sf' = false) /\
  (forall shape x, ao = Array shape [x] -> (0 < length shape)%nat ->
     ao' = Scalar x /\ is_plain_scalar ao' = true) /\
  (forall xs, ao = Array [] xs -> ao' = ao /\ is_plain_scalar ao' = false).
Proof.
  intros Hany Hdata Hl Hsf Hao Hsf' Hao'. split.
  { apply (scale_offset_decode_numpy v name st l a attrs1 encoding1 attrs2
             encoding2 sf ao sf' ao'); try done; by apply reduced_reduce_factor. }
  repeat split.
  - subst sf. destruct shape; simpl in *; [lia|done].
  - subst sf. destruct shape; simpl in *; [lia|]. by rewrite Hsf'.
  - by subst sf.
  - subst sf. simpl in Hsf'. by rewrite Hsf'.
  - subst ao. destruct shape; simpl in *; [lia|done].
  - subst ao. destruct shape; simpl in *; [lia|]. by rewrite Hao'.
  - by subst ao.
  - subst ao. simpl in Hao'. by rewrite Hao'.
Qed.

(** The theorem at two variables: a one-dimensional [scale_factor] of one
    element reaches the transform as a plain scalar, a zero-dimensional one
    as the array it is. *)
Lemma scale_offset_decode_reduces_factors_witness :
  CFScaleOffsetCoder.decode examples.one_dim_scaled None (State [examples.one] [])
  = (inr (mkVariable ["x"]
            (explicitly_indexed
               (_ElementwiseFunctionArray (NumpyIndexingAdapter 0%nat)
                  (partial_scale_offset_decoding (Scalar (SFloat 2)) PNone float64)
                  float64))
            ∅ (<["scale_factor" := Array [1%nat] [SFloat 2]]> ∅)),
     State [examples.one] [NewElementwiseFunctionArray; NewVariable]) /\
  CFScaleOffsetCoder.decode examples.zero_dim_scaled None (State [examples.one] [])
  = (inr (mkVariable ["x"]
            (explicitly_indexed
               (_ElementwiseFunctionArray (NumpyIndexingAdapter 0%nat)
                  (partial_scale_offset_decoding (Array [] [SFloat 2]) PNone float64)
                  float64))
            ∅ (<["scale_factor" := Array [] [SFloat 2]]> ∅)),
     State [examples.one] [NewElementwiseFunctionArray; NewVariable]).
Proof.
  split.
  - apply (scale_offset_decode_reduces_factors examples.one_dim_scaled None
             (State [examples.one] []) 0%nat examples.one
             ∅ (<["scale_factor" := Array [1%nat] [SFloat 2]]> ∅)
             ∅ (<["scale_factor" := Array [1%nat] [SFloat 2]]> ∅)
             (Array [1%nat] [SFloat 2]) PNone (Scalar (SFloat 2)) PNone);
      reflexivity.
  - apply (scale_offset_decode_reduces_factors examples.zero_dim_scaled None
             (State [examples.one] []) 0%nat examples.one
             ∅ (<["scale_factor" := Array [] [SFloat 2]]> ∅)
             ∅ (<["scale_factor" := Array [] [SFloat 2]]> ∅)
             (Array [] [SFloat 2]) PNone (Array [] [SFloat 2]) PNone);
      reflexivity.
Defined.

(** ** UnsignedIntegerCoder *)

(** C7, as stated, fails: int8 data with [_Unsigned = "false"] is neither
    the signed/"true" nor the unsigned/"false" combination, and decoding it
    emits no diagnostic at all. *)
Lemma consistent_signedness_no_diagnostic :
  contains (attrs examples.signed_flagged_false) "_Unsigned" = true /\
  kind (arr_dtype examples.minus_one) = kind_i /\
  eq_str (get (attrs examples.signed_flagged_false) "_Unsigned" PNone) "true" = false /\
  ~ (exists (v' : xr_Variable) (st' : state),
       UnsignedIntegerCoder.decode examples.signed_flagged_false None
         (State [examples.minus_one] []) = (inr v', st') /\
       length (diagnostics (log st')) = 1%nat).
Proof.
  repeat split; try reflexivity.
  intros (v' & st' & Hrun & Hone).
  vm_compute in Hrun. injection Hrun as <- <-. discriminate Hone.
Qed.

(** C7, amended. Unsigned decode of a variable with [_Unsigned] in attrs
    (the flag moving to encoding without collision): when the dtype is not
    an integer dtype, it emits exactly one diagnostic and returns the data
    unmodified; when the dtype is a signed integer and the flag is not
    "true", or an unsigned integer and the flag is not "false", it returns
    the data unmodified and emits no diagnostic. *)
Theorem unsigned_decode_pass_through (v : xr_Variable) (name : option string)
  (st : state) (dt : dtype) :
  contains (attrs v) "_Unsigned" = true ->
  array_dtype (_data v) st = (inr dt, st) ->
  (is_not_None (get (attrs v) "_Unsigned" PNone) = true ->
   encoding v !! "_Unsigned" = None) ->
  (kind dt <> kind_i -> kind dt <> kind_u ->
     UnsignedIntegerCoder.decode v name st
     = (inr (mkVariable (dims v) (_data v) (delete "_Unsigned" (attrs v))
               (received (attrs v) (encoding v) "_Unsigned")),
        State (heap st) (log st ++ [Warn (UnsignedNotInteger name); NewVariable]))) /\
  (kind dt = kind_i /\ eq_str (get (attrs v) "_Unsigned" PNone) "true" = false \/
   kind dt = kind_u /\ eq_str (get (attrs v) "_Unsigned" PNone) "false" = false ->
     UnsignedIntegerCoder.decode v name st
     = (inr (mkVariable (dims v) (_data v) (delete "_Unsigned" (attrs v))
               (received (attrs v) (encoding v) "_Unsigned")),
        State (heap st) (log st ++ [NewVariable]))).
Proof.
  intros Hflag Hdtype Hfree.
  split.
  - intros Hi Hu.
    unfold UnsignedIntegerCoder.decode. rewrite Hflag.
    unfold unpack_for_decoding. rewrite (pop_to_ok _ _ _ Hfree).
    unfold bind at 1, lift at 1. unfold bind at 1. rewrite Hdtype.
    unfold bind at 1.
    assert (forall A (x y z : A),
              match kind dt with kind_i => x | kind_u => y | _ => z end = z) as ->.
    { intros. by destruct (kind dt). }
    unfold bind, warn, emit, new_Variable, ret. simpl. unfold bind, emit. simpl.
    by rewrite <- app_assoc.
  - intros Hcase.
    unfold UnsignedIntegerCoder.decode. rewrite Hflag.
    unfold unpack_for_decoding. rewrite (pop_to_ok _ _ _ Hfree).
    unfold bind at 1, lift at 1. unfold bind at 1. rewrite Hdtype.
    destruct Hcase as [[Hi Hnot]|[Hu Hnot]].
    + rewrite Hi, Hnot. unfold bind, new_Variable, emit, ret. simpl. done.
    + rewrite Hu, Hnot. unfold bind, new_Variable, emit, ret. simpl. done.
Qed.

(** The theorem at float32 data carrying the flag (one diagnostic) and at
    int8 data flagged "false" (none). *)
Lemma unsigned_decode_pass_through_witness :
  UnsignedIntegerCoder.decode examples.signed_flagged_true (Some "t")
    (State [examples.single] [])
  = (inr (mkVariable ["x"] (np_ndarray 0%nat) ∅
            (<["_Unsigned" := Scalar (SStr "true")]> ∅)),
     State [examples.single] [Warn (UnsignedNotInteger (Some "t")); NewVariable]) /\
  UnsignedIntegerCoder.decode examples.signed_flagged_false None
    (State [examples.minus_one] [])
  = (inr (mkVariable ["x"] (np_ndarray 0%nat) ∅
            (<["_Unsigned" := Scalar (SStr "false")]> ∅)),
     State [examples.minus_one] [NewVariable]).
Proof.
  split.
  - apply (unsigned_decode_pass_through examples.signed_flagged_true (Some "t")
             (State [examples.single] []) float32); by vm_compute.
  - apply (unsigned_decode_pass_through examples.signed_flagged_false None
             (State [examples.minus_one] []) int8); try by vm_compute.
    left. by vm_compute.
Defined.

Lemma wrap_unsigned_signed (n z : Z) :
  0 < n -> 0 <= z < 2 ^ (8 * n) ->
  np.wrap_unsigned n (np.wrap_signed n z) = z.
Proof.
  intros Hn Hz. unfold np.wrap_unsigned, np.wrap_signed.
  rewrite Zminus_mod_idemp_l.
  replace (z + 2 ^ (8 * n - 1) - 2 ^ (8 * n - 1)) with z by lia.
  by apply Z.mod_small.
Qed.

Lemma wrap_signed_unsigned (n z : Z) :
  0 < n -> - 2 ^ (8 * n - 1) <= z < 2 ^ (8 * n - 1) ->
  np.wrap_signed n (np.wrap_unsigned n z) = z.
Proof.
  intros Hn Hz. unfold np.wrap_unsigned, np.wrap_signed.
  rewrite Zplus_mod_idemp_l.
  assert (2 ^ (8 * n) = 2 * 2 ^ (8 * n - 1)) as Hpow.
  { rewrite <- Z.pow_succ_r by lia. f_equal. lia. }
  rewrite Z.mod_small by lia. lia.
Qed.

(** C5, as stated, fails: int8 data [-1] encoded with [_Unsigned = "true"]
    is stored with the signed dtype int8 and the value [-1], not as uint8
    [255]; and stored uint8 [255] decoded with [_Unsigned = "true"] stays
    uint8 [255], it does not become [-1]. *)
Lemma signed_data_not_stored_unsigned :
  ~ (exists (v' : xr_Variable) (st' : state) (l : loc),
       UnsignedIntegerCoder.encode (core := reference_core) examples.to_store None
         (State [examples.minus_one] []) = (inr v', st') /\
       _data v' = np_ndarray l /\
       heap st' !! l = Some examples.unsigned_byte) /\
  UnsignedIntegerCoder.decode examples.signed_flagged_true None
    (State [examples.unsigned_byte] [])
  = (inr (mkVariable ["x"] (np_ndarray 0%nat) ∅
            (<["_Unsigned" := Scalar (SStr "true")]> ∅)),
     State [examples.unsigned_byte] [NewVariable]).
Proof.
  split; [|by vm_compute].
  intros (v' & st' & l & Hrun & Hdata & Hl).
  vm_compute in Hrun. injection Hrun as <- <-.
  simpl in Hdata. injection Hdata as <-. vm_compute in Hl. discriminate Hl.
Qed.

(** C5, amended. Unsigned round trip: encoding uint8 data [255] with
    [_Unsigned = "true"] in encoding stores it with the signed dtype int8
    and the value [-1] (rounded to the nearest integer, then converted to
    the signed integer type of the same width), the flag moving to attrs;
    decoding stored int8 [-1] with [_Unsigned = "true"] in attrs gives a
    lazy node of dtype uint8 that materialises to [255]. For every width
    the two conversions are inverse on the values in range. *)
Theorem unsigned_round_trip :
  UnsignedIntegerCoder.encode (core := reference_core) examples.to_store None
    (State [examples.unsigned_byte] [])
  = (inr (mkVariable ["x"] (np_ndarray 2%nat)
            (<["_Unsigned" := Scalar (SStr "true")]> ∅) ∅),
     State [examples.unsigned_byte; examples.unsigned_byte; examples.minus_one]
       [NewVariable]) /\
  (v' <- UnsignedIntegerCoder.decode examples.signed_flagged_true None ;;
   match _data v' with
   | explicitly_indexed node =>
       d <- indexable_dtype node ;; l <- get_duck_array node ;; ret (v', d, l)
   | _ => raise TypeError
   end) (State [examples.minus_one] [])
  = (inr (mkVariable ["x"]
            (explicitly_indexed
               (_ElementwiseFunctionArray (NumpyIndexingAdapter 0%nat)
                  (partial_asarray uint8) uint8))
            ∅ (<["_Unsigned" := Scalar (SStr "true")]> ∅),
          uint8, 1%nat),
     State [examples.minus_one; examples.unsigned_byte]
       [NewElementwiseFunctionArray; NewVariable]) /\
  (forall n z : Z, 0 < n -> 0 <= z < 2 ^ (8 * n) ->
     and_then (np.cast (Dtype kind_i n) (SInt z)) (np.cast (Dtype kind_u n))
     = inr (SInt z)) /\
  (forall n z : Z, 0 < n -> - 2 ^ (8 * n - 1) <= z < 2 ^ (8 * n - 1) ->
     and_then (np.cast (Dtype kind_u n) (SInt z)) (np.cast (Dtype kind_i n))
     = inr (SInt z)).
Proof.
  split; [by vm_compute|]. split; [by vm_compute|]. split.
  - intros n z Hn Hz. unfold np.cast, and_then. simpl.
    by rewrite wrap_unsigned_signed.
  - intros n z Hn Hz. unfold np.cast, and_then. simpl.
    by rewrite wrap_signed_unsigned.
Qed.

(** ** CFMaskCoder *)





Section mask_decode.
Context {core : XarrayCore}.


End mask_decode.





(** Reading a dtype leaves the state as it is. *)
Lemma indexable_dtype_state (x : indexable) (st st' : state) (r : result dtype) :
  indexable_dtype x st = (r, st') -> st' = st.
Proof.
  destruct x; simpl; unfold bind, read, ret.
  - destruct (heap st !! array0); by intros [= _ <-].
  - by intros [= _ <-].
Qed.

Lemma array_dtype_state (data : array) (st st' : state) (r : result dtype) :
  array_dtype data st = (r, st') -> st' = st.
Proof.
  destruct data; simpl.
  - unfold bind, read, ret. destruct (heap st !! l); by intros [= _ <-].
  - unfold ret. by intros [= _ <-].
  - apply indexable_dtype_state.
Qed.

(** A sentinel that is not [None] is not [None] once cast. *)
Lemma dtype_type_not_None (d : dtype) (v v' : pyval) :
  is_not_None v = true -> np.dtype_type d v = inr v' -> is_not_None v' = true.
Proof.
  destruct v as [x|shape xs]; simpl.
  - unfold np.cast. intros Hx.
    destruct (kind d), x; try done; by intros [= <-].
  - intros _. destruct (np.traverse _ _); [done|]. by intros [= <-].
Qed.

Section mask_encode.
Context {core : XarrayCore}.

(** One sentinel step of [CFMaskCoder.encode], for a sentinel that is not
    [None]: if the step succeeds, the sentinel cast to [dtype] is in attrs
    under its key, and the other keys of attrs are as before. *)
Lemma mask_encode_step (dtype : dtype) (key : string) (value : pyval)
  (fill : bool -> bool) (data data' : array)
  (attrs attrs' encoding encoding' : dict) (st st' : state) :
  is_not_None value = true ->
  (cast_value <- lift (np.dtype_type dtype value) ;;
   let encoding := <[key := cast_value]> encoding in
   let '(encoding, attrs, fill_value) := pop_to encoding attrs key in
   fill_value <- lift fill_value ;;
   null <- lift (isnull fill_value) ;;
   data <- (if fill null then fillna data fill_value else ret data) ;;
   ret (data, attrs, encoding)) st = (inr (data', attrs', encoding'), st') ->
  exists cast_value,
    np.dtype_type dtype value = inr cast_value /\
    attrs !! key = None /\
    attrs' = <[key := cast_value]> attrs /\
    encoding' = delete key encoding.
Proof.
  intros Hvalue. unfold bind at 1, lift at 1.
  destruct (np.dtype_type dtype value) as [e|cast_value] eqn:Hcast; [done|].
  pose proof (dtype_type_not_None _ _ _ Hvalue Hcast) as Hnot.
  cbv zeta. unfold pop_to, get. rewrite lookup_insert_eq. rewrite Hnot.
  unfold safe_setitem. destruct (contains attrs key) eqn:Hheld.
  { unfold bind, lift. done. }
  unfold bind at 1, lift at 1. unfold bind at 1, lift at 1.
  destruct (isnull cast_value) as [e|null]; [done|].
  unfold bind at 1.
  destruct ((if fill null then fillna data cast_value else ret data) st)
    as [[e|data''] st''] eqn:Hfill; [done|].
  unfold ret. intros [= <- <- <- <-].
  exists cast_value. split; [done|]. split; [by apply contains_false|].
  split; [done|]. by rewrite delete_insert_eq.
Qed.

End mask_encode.

(** The dtype of an array depends on the store only, not on the log. *)
Lemma array_dtype_heap (data : array) (st st' : state) (dt : dtype) :
  array_dtype data st = (inr dt, st) -> heap st' = heap st ->
  array_dtype data st' = (inr dt, st').
Proof.
  intros Hdt Hheap. destruct data as [l| | [l|]]; simpl in *.
  - unfold bind, read, ret in *. rewrite Hheap.
    destruct (heap st !! l); [|done]. by injection Hdt as ->.
  - unfold ret in *. by injection Hdt as ->.
  - unfold bind, read, ret in *. rewrite Hheap.
    destruct (heap st !! l); [|done]. by injection Hdt as ->.
  - unfold ret in *. by injection Hdt as ->.
Qed.

(** ** Coders on a variable without their metadata *)

Lemma xr_Variable_eta (v : xr_Variable) :
  mkVariable (dims v) (_data v) (attrs v) (encoding v) = v.
Proof. by destruct v. Qed.

Section without_metadata.
Context {core : XarrayCore}.



Lemma mask_decode_plain (v : xr_Variable) (name : option string) (st : state)
  (dt : dtype) :
  array_dtype (_data v) st = (inr dt, st) ->
  attrs v !! "_FillValue" = None -> attrs v !! "missing_value" = None ->
  CFMaskCoder.decode v name st
  = (inr v, State (heap st) (log st ++ [NewVariable])).
Proof.
  intros Hdt Hfv Hmv.
  unfold CFMaskCoder.decode, unpack_for_decoding.
  rewrite (pop_to_absent _ _ _ Hmv). unfold bind at 1, lift at 1.
  rewrite (pop_to_absent _ _ _ Hfv). unfold bind at 1, lift at 1.
  cbn [truth map np.ravel concat app].
  assert (set_of (filter (fun fv => negb (np.isnull fv)) [SNone; SNone]) = [])
    as -> by reflexivity.
  cbn [truth length Nat.ltb Nat.leb].
  unfold bind at 1, ret at 1. unfold bind at 1. rewrite Hdt.
  destruct (maybe_promote dt) as [d null].
  unfold bind at 1, ret at 1. unfold new_Variable, bind, emit, ret.
  by rewrite xr_Variable_eta.
Qed.

End without_metadata.




(** ** The dtype of the sentinels in [CFMaskCoder.encode] *)



(** * Further properties of the code *)

(** ** [pop_to] and [safe_setitem] *)

(** [pop_to] touches one key only: every other key of both maps keeps its
    value; the key is never left in the source; a value the destination
    already holds is never overwritten; and the call raises exactly when
    the source holds a value that is not [None] under a key the
    destination holds too, the destination being left as it was. *)
Theorem pop_to_frame (source dest : dict) (key : string) :
  (forall key', key' <> key ->
     (pop_to source dest key).1.1 !! key' = source !! key' /\
     (pop_to source dest key).1.2 !! key' = dest !! key') /\
  (pop_to source dest key).1.1 !! key = None /\
  (forall w, dest !! key = Some w -> (pop_to source dest key).1.2 !! key = Some w) /\
  ((exists e, (pop_to source dest key).2 = inl e) <->
   (is_Some (dest !! key) /\
    exists v, source !! key = Some v /\ is_not_None v = true)) /\
  (forall e, (pop_to source dest key).2 = inl e ->
     (pop_to source dest key).1.2 = dest).
Proof.
  assert ((pop_to source dest key).1.1 = delete key source) as Hsource.
  { unfold pop_to. destruct (is_not_None _); [|done].
    by destruct (safe_setitem _ _ _). }
  rewrite Hsource.
  split; [|split; [|split; [|split]]].
  - intros key' Hne. split; [by rewrite lookup_delete_ne|].
    unfold pop_to, safe_setitem. destruct (is_not_None _); [|done].
    destruct (contains dest key); [done|]. simpl. by rewrite lookup_insert_ne.
  - apply lookup_delete_eq.
  - intros w Hw. unfold pop_to, safe_setitem.
    destruct (is_not_None _); [|done].
    by rewrite (proj2 (contains_true dest key)) by (by rewrite Hw).
  - unfold pop_to, safe_setitem, get.
    destruct (source !! key) as [v|] eqn:Hsrc.
    + destruct (is_not_None v) eqn:Hnot; simpl.
      * destruct (contains dest key) eqn:Hheld; simpl.
        -- apply contains_true in Hheld. split; [|by eexists].
           intros _. split; [done|]. by exists v.
        -- apply contains_false in Hheld. split; [by intros [e He]|].
           intros [[w Hw] _]. by rewrite Hheld in Hw.
      * split; [by intros [e He]|].
        intros [_ (v' & [= <-] & Hv')]. by rewrite Hnot in Hv'.
    + simpl. split; [by intros [e He]|]. by intros [_ (v' & [=] & _)].
  - intros e. unfold pop_to, safe_setitem.
    destruct (is_not_None _); [|done]. by destruct (contains dest key).
Qed.

(** Moving a key there and back restores both maps: when the source holds
    a value that is not [None] and the destination does not hold the key,
    [pop_to] from the source to the destination followed by [pop_to] in
    the other direction gives the two maps back and returns the value. *)
Theorem pop_to_there_and_back (source dest : dict) (key : string) (value : pyval) :
  source !! key = Some value ->
  is_not_None value = true ->
  dest !! key = None ->
  pop_to (pop_to source dest key).1.2 (pop_to source dest key).1.1 key
  = (dest, source, inr value).
Proof.
  intros Hvalue Hnot Hfree.
  rewrite (pop_to_moved _ _ _ _ Hvalue Hnot Hfree). simpl.
  rewrite (pop_to_moved _ _ _ value).
  - rewrite delete_insert_id by done. by rewrite insert_delete_id.
  - apply lookup_insert_eq.
  - done.
  - apply lookup_delete_eq.
Qed.

(** The theorem at [add_offset = 1] moved from encoding to empty attrs and
    back. *)
Lemma pop_to_there_and_back_witness :
  pop_to
    (pop_to (<["add_offset" := Scalar (SInt 1)]> ∅) (∅ : dict) "add_offset").1.2
    (pop_to (<["add_offset" := Scalar (SInt 1)]> ∅) (∅ : dict) "add_offset").1.1
    "add_offset"
  = (∅, <["add_offset" := Scalar (SInt 1)]> ∅, inr (Scalar (SInt 1))).
Proof.
  apply (pop_to_there_and_back (<["add_offset" := Scalar (SInt 1)]> ∅)
           (∅ : dict) "add_offset" (Scalar (SInt 1))); reflexivity.
Defined.

(** ** [_choose_float_dtype] *)

(** The policy only ever answers single or double precision; for a floating
    dtype the offset flag is irrelevant; and an offset never narrows the
    answer: whatever gets single precision with an offset gets it without. *)
Theorem choose_float_dtype_range (d : dtype) :
  (forall has_offset,
     _choose_float_dtype d has_offset = float32 \/
     _choose_float_dtype d has_offset = float64) /\
  (issubdtype_floating d = true ->
     _choose_float_dtype d true = _choose_float_dtype d false) /\
  (_choose_float_dtype d true = float32 -> _choose_float_dtype d false = float32) /\
  (forall has_offset,
     issubdtype_floating (_choose_float_dtype d has_offset) = true /\
     4 <= itemsize (_choose_float_dtype d has_offset)).
Proof.
  unfold _choose_float_dtype.
  split; [|split; [|split]].
  - intros has_offset.
    destruct (_ && issubdtype_floating d); [by left|].
    destruct (_ && issubdtype_integer d); [|by right].
    destruct has_offset; [by right|by left].
  - intros Hf.
    assert (issubdtype_integer d = false) as ->.
    { unfold issubdtype_floating, issubdtype_integer in *. by destruct (kind d). }
    rewrite andb_false_r. by destruct (_ && issubdtype_floating d).
  - destruct (_ && issubdtype_floating d); [done|].
    destruct (_ && issubdtype_integer d); done.
  - intros has_offset.
    destruct (_ && issubdtype_floating d); [done|].
    destruct (_ && issubdtype_integer d); [|done].
    by destruct has_offset.
Qed.

(** ** [CFMaskCoder.encode] *)

(** The dtype the sentinels are cast to: whenever mask encode returns, the
    dtype is [np.dtype] of the [dtype] entry of encoding when there is one
    and the dtype of the data otherwise, and every [_FillValue] or
    [missing_value] of encoding that is not [None] has left encoding and
    sits in attrs cast to that dtype. *)
Theorem mask_encode_sentinel_dtype (core : XarrayCore) (v v' : xr_Variable)
  (name : option string) (st st' : state) :
  CFMaskCoder.encode v name st = (inr v', st') ->
  exists (data : array) (st1 : state) (dt d : dtype),
    Variable_data (_data v) st = (inr data, st1) /\
    array_dtype data st1 = (inr dt, st1) /\
    np.as_dtype (get (encoding v) "dtype" (Scalar (SDtype dt))) = inr d /\
    (encoding v !! "dtype" = None -> d = dt) /\
    (forall fv, encoding v !! "_FillValue" = Some fv -> is_not_None fv = true ->
       exists fv', np.dtype_type d fv = inr fv' /\
                   attrs v' !! "_FillValue" = Some fv' /\
                   encoding v' !! "_FillValue" = None) /\
    (forall mv, encoding v !! "missing_value" = Some mv -> is_not_None mv = true ->
       exists mv', np.dtype_type d mv = inr mv' /\
                   attrs v' !! "missing_value" = Some mv' /\
                   encoding v' !! "missing_value" = None).
Proof.
  unfold CFMaskCoder.encode, unpack_for_encoding.
  unfold bind at 1. unfold bind at 1.
  destruct (Variable_data (_data v) st) as [[e|data] st1] eqn:Hdata; [done|].
  unfold ret at 1. unfold bind at 1.
  destruct (array_dtype data st1) as [[e|dt] st1'] eqn:Hdt; [done|].
  pose proof (array_dtype_state _ _ _ _ Hdt) as ->.
  unfold bind at 1, lift at 1.
  destruct (np.as_dtype (get (encoding v) "dtype" (Scalar (SDtype dt))))
    as [e|d] eqn:Hd; [done|].
  destruct (_ && negb (allclose_or_equiv _ _)) eqn:Hconflict; [done|].
  intros Hrun. exists data, st1, dt, d.
  split; [done|]. split; [done|]. split; [done|].
  split. { intros Hnone. unfold get in Hd. rewrite Hnone in Hd. by injection Hd. }
  unfold bind at 1 in Hrun.
  match type of Hrun with
  | (match ?m with _ => _ end) = _ =>
      destruct m as [[e|[[data1 attrs1] encoding1]] st2] eqn:Hstep1; [done|]
  end.
  unfold bind at 1 in Hrun.
  match type of Hrun with
  | (match ?m with _ => _ end) = _ =>
      destruct m as [[e|[[data2 attrs2] encoding2]] st3] eqn:Hstep2; [done|]
  end.
  unfold new_Variable, bind, emit, ret in Hrun. simpl in Hrun.
  injection Hrun as <- <-. cbn [attrs encoding].
  assert (attrs2 !! "_FillValue" = attrs1 !! "_FillValue" /\
          encoding2 !! "_FillValue" = encoding1 !! "_FillValue" /\
          forall mv, encoding1 !! "missing_value" = Some mv ->
                     is_not_None mv = true ->
            exists mv', np.dtype_type d mv = inr mv' /\
                        attrs2 !! "missing_value" = Some mv' /\
                        encoding2 !! "missing_value" = None) as (Hfa & Hfe & Hmissing).
  { destruct (is_not_None (get (encoding v) "missing_value" PNone)) eqn:Hnot.
    - apply (mask_encode_step d "missing_value" _
               (fun null => negb null &&
                            negb (is_not_None (get (encoding v) "_FillValue" PNone))))
        in Hstep2; [|done].
      destruct Hstep2 as (mv' & Hcast & _ & -> & ->).
      split; [by rewrite lookup_insert_ne|].
      split; [by rewrite lookup_delete_ne|].
      intros mv Hmv _.
      assert (encoding v !! "missing_value" = encoding1 !! "missing_value") as Hsame.
      { destruct (is_not_None (get (encoding v) "_FillValue" PNone)) eqn:Hnotfv.
        - apply (mask_encode_step d "_FillValue" _ negb) in Hstep1; [|done].
          destruct Hstep1 as (fv' & _ & _ & _ & ->). by rewrite lookup_delete_ne.
        - unfold ret in Hstep1. by injection Hstep1 as <- <- <- <-. }
      exists mv'. unfold get in Hcast. rewrite Hsame, Hmv in Hcast.
      split; [done|]. split; [apply lookup_insert_eq|apply lookup_delete_eq].
    - unfold ret in Hstep2. injection Hstep2 as <- <- <- <-.
      split; [done|]. split; [done|]. intros mv Hmv Hmvnot.
      assert (encoding v !! "missing_value" = encoding1 !! "missing_value") as Hsame.
      { destruct (is_not_None (get (encoding v) "_FillValue" PNone)) eqn:Hnotfv.
        - apply (mask_encode_step d "_FillValue" _ negb) in Hstep1; [|done].
          destruct Hstep1 as (fv' & _ & _ & _ & ->). by rewrite lookup_delete_ne.
        - unfold ret in Hstep1. by injection Hstep1 as <- <- <- <-. }
      unfold get in Hnot. rewrite Hsame, Hmv in Hnot. by rewrite Hnot in Hmvnot. }
  split.
  - intros fv Hfv Hfvnot. unfold get in Hstep1. rewrite Hfv, Hfvnot in Hstep1.
    apply (mask_encode_step d "_FillValue" _ negb) in Hstep1; [|done].
    destruct Hstep1 as (fv' & Hcast & _ & -> & ->).
    exists fv'. split; [done|]. rewrite Hfa, Hfe.
    split; [apply lookup_insert_eq|apply lookup_delete_eq].
  - intros mv Hmv. apply Hmissing.
    destruct (is_not_None (get (encoding v) "_FillValue" PNone)) eqn:Hnotfv.
    + apply (mask_encode_step d "_FillValue" _ negb) in Hstep1; [|done].
      destruct Hstep1 as (fv' & _ & _ & _ & ->). by rewrite lookup_delete_ne.
    + unfold ret in Hstep1. by injection Hstep1 as <- <- <- <-.
Qed.

(** The theorem at float64 data [1.5] with [dtype = int16] and the float
    sentinel [-1.0] in encoding: the sentinel reaches attrs as the integer
    [-1], a dtype that is not the dtype of the data. *)
Lemma mask_encode_sentinel_dtype_witness :
  exists (v' : xr_Variable) (st' : state),
    CFMaskCoder.encode (core := reference_core) examples.to_mask None
      (State [examples.measured] []) = (inr v', st') /\
    attrs v' !! "_FillValue" = Some (Scalar (SInt (-1))) /\
    encoding v' !! "_FillValue" = None /\
    arr_dtype examples.measured = float64.
Proof.
  destruct (CFMaskCoder.encode (core := reference_core) examples.to_mask None
              (State [examples.measured] [])) as [[e|v'] st'] eqn:Hrun.
  { vm_compute in Hrun. discriminate Hrun. }
  destruct (mask_encode_sentinel_dtype reference_core _ _ _ _ _ Hrun)
    as (data & st1 & dt & d & _ & _ & Hd & _ & Hfv & _).
  assert (d = int16) as -> by (vm_compute in Hd; by injection Hd as <-).
  destruct (Hfv (Scalar (SFloat (-1))) eq_refl eq_refl)
    as (fv' & Hcast & Hattrs & Henc).
  assert (fv' = Scalar (SInt (-1))) as ->
    by (vm_compute in Hcast; by injection Hcast as <-).
  by exists v', st'.
Defined.

(** Conflicting sentinels: when encoding holds a [_FillValue] and a
    [missing_value] that are not [None] and not close to each other, mask
    encode raises the conflict error, and it does so before anything is
    moved, filled or built: the state is the one the [data] property left. *)
Theorem mask_encode_conflict (core : XarrayCore) (v : xr_Variable)
  (name : option string) (st st1 : state) (data : array) (dt d : dtype)
  (fv mv : pyval) :
  Variable_data (_data v) st = (inr data, st1) ->
  array_dtype data st1 = (inr dt, st1) ->
  np.as_dtype (get (encoding v) "dtype" (Scalar (SDtype dt))) = inr d ->
  encoding v !! "_FillValue" = Some fv -> is_not_None fv = true ->
  encoding v !! "missing_value" = Some mv -> is_not_None mv = true ->
  allclose_or_equiv fv mv = false ->
  CFMaskCoder.encode v name st = (inl CFMaskCoder.conflict_error, st1).
Proof.
  intros Hdata Hdt Hd Hfv Hfvnot Hmv Hmvnot Hfar.
  unfold CFMaskCoder.encode, unpack_for_encoding.
  unfold bind at 1. unfold bind at 1. rewrite Hdata. unfold ret at 1.
  unfold bind at 1. rewrite Hdt. unfold bind at 1, lift at 1. rewrite Hd.
  unfold get. rewrite Hfv, Hmv, Hfvnot, Hmvnot, Hfar. done.
Qed.

(** The theorem at [_FillValue = 1], [missing_value = 2]; with both equal
    to 1 the encoder succeeds. *)
Lemma mask_encode_conflict_witness :
  CFMaskCoder.encode (core := reference_core) examples.conflicting None
    (State [examples.short] [])
  = (inl CFMaskCoder.conflict_error, State [examples.short] []) /\
  exists (v' : xr_Variable) (st' : state),
    CFMaskCoder.encode (core := reference_core) examples.agreeing None
      (State [examples.short] []) = (inr v', st').
Proof.
  split.
  - apply (mask_encode_conflict reference_core examples.conflicting None
             (State [examples.short] []) (State [examples.short] [])
             (np_ndarray 0%nat) int16 int16 (Scalar (SInt 1)) (Scalar (SInt 2)));
      reflexivity.
  - eexists _, _. vm_compute. reflexivity.
Defined.

(** ** [CFMaskCoder.decode] without sentinel *)

(** When attrs give no sentinel that is not null ([missing_value] and
    [_FillValue] absent, [None] or NaN), mask decode wraps nothing and
    warns of nothing: the payload is passed on as it is, whatever kind of
    array it is. The two keys still leave attrs, and only values that are
    not [None] reach encoding. The list of popped values always has two
    entries, so the [return variable] branch is never taken: the result is
    a newly built Variable. *)
Theorem mask_decode_without_sentinel (core : XarrayCore) (v : xr_Variable)
  (name : option string) (st : state) (dt : dtype) :
  array_dtype (_data v) st = (inr dt, st) ->
  (is_not_None (get (attrs v) "missing_value" PNone) = true ->
   encoding v !! "missing_value" = None) ->
  (is_not_None (get (attrs v) "_FillValue" PNone) = true ->
   encoding v !! "_FillValue" = None) ->
  sentinels (attrs v) = [] ->
  CFMaskCoder.decode v name st =
  (inr (mkVariable (dims v) (_data v)
          (delete "_FillValue" (delete "missing_value" (attrs v)))
          (received (attrs v) (received (attrs v) (encoding v) "missing_value")
             "_FillValue")),
   State (heap st) (log st ++ [NewVariable])).
Proof.
  intros Hdt Hmv Hfv Hnone.
  unfold CFMaskCoder.decode, unpack_for_decoding.
  rewrite (pop_to_ok _ _ "missing_value" Hmv).
  unfold bind at 1, lift at 1.
  assert (is_not_None (get (delete "missing_value" (attrs v)) "_FillValue" PNone) = true ->
          received (attrs v) (encoding v) "missing_value" !! "_FillValue" = None)
    as Hfv'.
  { unfold get. rewrite lookup_delete_ne by done.
    by rewrite received_lookup_ne. }
  rewrite (pop_to_ok _ _ "_FillValue" Hfv').
  unfold bind at 1, lift at 1. cbn [truth].
  assert (get (delete "missing_value" (attrs v)) "_FillValue" PNone
          = get (attrs v) "_FillValue" PNone) as ->.
  { unfold get. by rewrite lookup_delete_ne. }
  rewrite received_delete_ne by done.
  fold (sentinels (attrs v)). rewrite Hnone. cbn [length truth Nat.ltb Nat.leb].
  unfold bind at 1, ret at 1. unfold bind at 1. rewrite Hdt.
  destruct (maybe_promote dt) as [d null].
  unfold bind at 1, ret at 1. unfold new_Variable, bind, emit, ret. done.
Qed.

(** The theorem at int16 data whose attrs hold [_FillValue = NaN] and
    [missing_value = None]: both keys leave attrs, NaN reaches encoding,
    [None] does not, and the data is the same array. *)
Lemma mask_decode_without_sentinel_witness :
  CFMaskCoder.decode (core := reference_core)
    (mkVariable ["x"] (np_ndarray 0%nat)
       (<["_FillValue" := Scalar (SFloat nan)]>
          (<["missing_value" := PNone]> ∅)) ∅)
    None (State [examples.short] [])
  = (inr (mkVariable ["x"] (np_ndarray 0%nat) ∅
            (<["_FillValue" := Scalar (SFloat nan)]> ∅)),
     State [examples.short] [NewVariable]).
Proof.
  rewrite (mask_decode_without_sentinel reference_core _ None
             (State [examples.short] []) int16);
    [vm_compute; reflexivity|reflexivity|reflexivity|reflexivity|
     vm_compute; reflexivity].
Defined.

(** ** Variables without metadata *)

(** Round trip of a variable that carries none of a coder's keys, for each
    of the three coders: [decode(encode(v))] has the dims, attrs and
    encoding of [v] and the payload its [data] property handed out. The
    unsigned coder returns its input twice and builds nothing; the
    scale/offset encoder builds one Variable, without converting or
    copying the data, and its decoder returns it; the mask coder builds a
    Variable in each direction. No lazy wrapper is built and no array is
    allocated by the coders. *)
Theorem no_metadata_round_trip (core : XarrayCore) (v : xr_Variable)
  (name : option string) (st : state) :
  (eq_str (get (encoding v) "_Unsigned" (Scalar (SStr "false"))) "true" = false ->
   attrs v !! "_Unsigned" = None ->
   (v' <- UnsignedIntegerCoder.encode v name ;;
    UnsignedIntegerCoder.decode v' name) st = (inr v, st)) /\
  (forall (data : array) (st1 : state),
     Variable_data (_data v) st = (inr data, st1) ->
     encoding v !! "scale_factor" = None -> encoding v !! "add_offset" = None ->
     attrs v !! "scale_factor" = None -> attrs v !! "add_offset" = None ->
     (v' <- CFScaleOffsetCoder.encode v name ;;
      CFScaleOffsetCoder.decode v' name) st
     = (inr (mkVariable (dims v) data (attrs v) (encoding v)),
        State (heap st1) (log st1 ++ [NewVariable]))) /\
  (forall (data : array) (st1 : state) (dt d : dtype),
     Variable_data (_data v) st = (inr data, st1) ->
     array_dtype data st1 = (inr dt, st1) ->
     np.as_dtype (get (encoding v) "dtype" (Scalar (SDtype dt))) = inr d ->
     encoding v !! "_FillValue" = None -> encoding v !! "missing_value" = None ->
     attrs v !! "_FillValue" = None -> attrs v !! "missing_value" = None ->
     (v' <- CFMaskCoder.encode v name ;; CFMaskCoder.decode v' name) st
     = (inr (mkVariable (dims v) data (attrs v) (encoding v)),
        State (heap st1) (log st1 ++ [NewVariable; NewVariable]))).
Proof.
  split; [|split].
  - intros Hflag Habsent.
    unfold bind, UnsignedIntegerCoder.encode. rewrite Hflag. unfold ret.
    unfold UnsignedIntegerCoder.decode.
    by rewrite (proj2 (contains_false _ _) Habsent).
  - intros data st1 Hdata Hsf Hao Hsf' Hao'.
    assert (CFScaleOffsetCoder.encode v name st
            = (inr (mkVariable (dims v) data (attrs v) (encoding v)),
               State (heap st1) (log st1 ++ [NewVariable]))) as Hencode.
    { rewrite scale_offset_encode_unfold. unfold unpack_for_encoding.
      unfold bind at 1. unfold bind at 1. rewrite Hdata. unfold ret at 1.
      unfold inplace_step.
      rewrite !(proj2 (contains_false _ _) Hsf), !(proj2 (contains_false _ _) Hao).
      cbn [orb]. unfold bind at 1, ret at 1. unfold bind at 1, ret at 1.
      rewrite (proj2 (contains_false _ _) Hsf).
      unfold bind at 1, ret at 1. unfold new_Variable, bind, emit, ret. done. }
    rewrite (bind_ok _ _ _ _ _ Hencode).
    unfold CFScaleOffsetCoder.decode. cbn [attrs].
    by rewrite (proj2 (contains_false _ _) Hsf'), (proj2 (contains_false _ _) Hao').
  - intros data st1 dt d Hdata Hdt Hd Hfv Hmv Hfv' Hmv'.
    assert (CFMaskCoder.encode v name st
            = (inr (mkVariable (dims v) data (attrs v) (encoding v)),
               State (heap st1) (log st1 ++ [NewVariable]))) as Hencode.
    { unfold CFMaskCoder.encode, unpack_for_encoding.
      unfold bind at 1. unfold bind at 1. rewrite Hdata. unfold ret at 1.
      unfold bind at 1. rewrite Hdt. unfold bind at 1, lift at 1. rewrite Hd.
      unfold get. rewrite Hfv, Hmv. done. }
    rewrite (bind_ok _ _ _ _ _ Hencode).
    rewrite (mask_decode_plain _ name _ dt);
      [|by apply (array_dtype_heap data st1)|done..].
    cbn [heap log]. by rewrite <- app_assoc.
Qed.

(** The theorem at a variable with empty attrs and encoding over int16
    data: each round trip gives the variable back. *)
Lemma no_metadata_round_trip_witness :
  (v' <- UnsignedIntegerCoder.encode (core := reference_core) examples.plain None ;;
   UnsignedIntegerCoder.decode v' None) (State [examples.short] [])
  = (inr examples.plain, State [examples.short] []) /\
  (v' <- CFScaleOffsetCoder.encode (core := reference_core) examples.plain None ;;
   CFScaleOffsetCoder.decode v' None) (State [examples.short] [])
  = (inr examples.plain, State [examples.short] [NewVariable]) /\
  (v' <- CFMaskCoder.encode (core := reference_core) examples.plain None ;;
   CFMaskCoder.decode (core := reference_core) v' None) (State [examples.short] [])
  = (inr examples.plain, State [examples.short] [NewVariable; NewVariable]).
Proof.
  destruct (no_metadata_round_trip reference_core examples.plain None
              (State [examples.short] [])) as (Hunsigned & Hscale & Hmask).
  split; [by apply Hunsigned|]. split.
  - by apply (Hscale (np_ndarray 0%nat) (State [examples.short] [])).
  - by apply (Hmask (np_ndarray 0%nat) (State [examples.short] []) int16 int16).
Defined.

(** ** [lazy_elemwise_func] *)

(** The dispatch of [lazy_elemwise_func] never raises and computes nothing:
    the store is left as it is and exactly one event is logged. A dask
    array is answered by a dask array over the same blocks, with the
    function registered last in the graph; any other array by an
    [_ElementwiseFunctionArray]. In both cases the declared dtype is the
    dtype of the result, known without materialising anything. The
    constructor of [_ElementwiseFunctionArray] itself refuses a dask array
    with an [AssertionError], which the dispatch never lets happen. *)
Theorem lazy_elemwise_func_dispatch (data : array) (f : func) (d : dtype)
  (st : state) :
  (exists r : array,
     lazy_elemwise_func data f d st
     = (inr r,
        State (heap st)
          (log st ++ [if is_duck_dask_array data
                      then MapBlocks else NewElementwiseFunctionArray])) /\
     is_duck_dask_array r = is_duck_dask_array data /\
     array_dtype r st = (inr d, st) /\
     match data, r with
     | dask_array blocks graph _, dask_array blocks' graph' _ =>
         blocks' = blocks /\ graph' = graph ++ [f]
     | np_ndarray l, explicitly_indexed (_ElementwiseFunctionArray source f' _) =>
         source = NumpyIndexingAdapter l /\ f' = f
     | explicitly_indexed x,
       explicitly_indexed (_ElementwiseFunctionArray source f' _) =>
         source = x /\ f' = f
     | _, _ => False
     end) /\
  (is_duck_dask_array data = true ->
   new_ElementwiseFunctionArray data f d st
   = (inl AssertionError,
      State (heap st) (log st ++ [NewElementwiseFunctionArray]))).
Proof.
  split.
  - destruct data as [l|blocks graph meta|x]; simpl.
    + eexists. split; [reflexivity|]. done.
    + eexists. split; [reflexivity|]. done.
    + eexists. split; [reflexivity|]. done.
  - destruct data; by intros.
Qed.

(** ** [CFScaleOffsetCoder.encode] and the caller's data *)

(** A step [data op= pop_to(encoding, attrs, key)] on the array allocated
    last, in every case. *)
Lemma inplace_step_last_eq zop fop (key : string) (h : list ndarray)
  (lg : list event) (a : ndarray) (attrs encoding : dict) :
  inplace_step (inplace zop fop) key (np_ndarray (length h)) attrs encoding
    (State (h ++ [a]) lg)
  = if contains encoding key then
      match pop_to encoding attrs key with
      | (encoding', attrs', inl e) => (inl e, State (h ++ [a]) lg)
      | (encoding', attrs', inr v) =>
          match arith_array zop fop v a with
          | inl e => (inl e, State (h ++ [a]) lg)
          | inr a' =>
              (inr (np_ndarray (length h), attrs', encoding'),
               State (h ++ [a']) lg)
          end
      end
    else (inr (np_ndarray (length h), attrs, encoding), State (h ++ [a]) lg).
Proof.
  unfold inplace_step. destruct (contains encoding key); [|done].
  destruct (pop_to encoding attrs key) as [[encoding' attrs'] [e|v]]; [done|].
  unfold bind at 1, lift at 1. unfold bind at 1. cbn [array_inplace].
  unfold bind at 1. rewrite inplace_last_eq.
  by destruct (arith_array zop fop v a).
Qed.

(** Such a step changes no other array, whether it succeeds or raises, and
    on success the data is still that array. *)
Lemma inplace_step_last_any zop fop (key : string) (h : list ndarray)
  (lg : list event) (a : ndarray) (attrs encoding : dict) :
  exists (a' : ndarray),
    (exists e,
       inplace_step (inplace zop fop) key (np_ndarray (length h)) attrs encoding
         (State (h ++ [a]) lg) = (inl e, State (h ++ [a']) lg)) \/
    (exists attrs' encoding',
       inplace_step (inplace zop fop) key (np_ndarray (length h)) attrs encoding
         (State (h ++ [a]) lg)
       = (inr (np_ndarray (length h), attrs', encoding'), State (h ++ [a']) lg)).
Proof.
  rewrite inplace_step_last_eq. destruct (contains encoding key).
  - destruct (pop_to encoding attrs key) as [[encoding' attrs'] [e|v]].
    + exists a. left. by exists e.
    + destruct (arith_array zop fop v a) as [e|a'].
      * exists a. left. by exists e.
      * exists a'. right. by exists attrs', encoding'.
  - exists a. right. by exists attrs, encoding.
Qed.

(** Scale/offset encode never writes into an array that existed before the
    call. For a numpy payload, whatever the metadata and whether the call
    returns or raises, the store it leaves is the store the [data]
    property left, followed by at most one new array: the conversion works
    on a copy ([astype(copy=True)]) and the in-place subtraction and
    division only ever touch that copy. *)
Theorem scale_offset_encode_preserves_arrays (core : XarrayCore)
  (v : xr_Variable) (name : option string) (st st1 : state) (l : loc)
  (a : ndarray) :
  Variable_data (_data v) st = (inr (np_ndarray l), st1) ->
  heap st1 !! l = Some a ->
  exists (r : result xr_Variable) (ext : list ndarray) (lg : list event),
    CFScaleOffsetCoder.encode v name st = (r, State (heap st1 ++ ext) lg) /\
    (length ext <= 1)%nat /\
    (heap st1 ++ ext) !! l = Some a /\
    (forall v', r = inr v' ->
       ext = [] /\ _data v' = np_ndarray l \/
       exists b, ext = [b] /\ _data v' = np_ndarray (length (heap st1))).
Proof.
  intros Hdata Hl.
  rewrite scale_offset_encode_unfold. unfold unpack_for_encoding.
  unfold bind at 1. unfold bind at 1. rewrite Hdata. unfold ret at 1.
  destruct (contains (encoding v) "scale_factor" || contains (encoding v) "add_offset")
    eqn:Hany.
  - unfold bind at 1. unfold bind at 1. cbn [array_dtype].
    rewrite (bind_ok _ _ _ _ _ (read_ok _ _ _ Hl)). unfold ret at 1.
    cbn [array_astype]. unfold bind at 1. rewrite (astype_eq _ _ _ _ Hl).
    destruct (cast_array _ a) as [e|a1].
    { exists (inl e), [], (log st1). rewrite app_nil_r, state_eta.
      split; [done|]. split; [simpl; lia|]. split; [done|]. by intros v' [=]. }
    unfold ret at 1. unfold bind at 1. unfold isub.
    destruct (inplace_step_last_any (Some Z.sub) PrimFloat.sub "add_offset"
                (heap st1) (log st1) a1 (attrs v) (encoding v))
      as (a2 & [(e & ->)|(attrs1 & encoding1 & ->)]).
    { exists (inl e), [a2], (log st1). split; [done|]. split; [simpl; lia|].
      split; [by apply lookup_app_l_Some|]. by intros v' [=]. }
    unfold bind at 1. unfold itruediv.
    destruct (inplace_step_last_any None PrimFloat.div "scale_factor"
                (heap st1) (log st1) a2 attrs1 encoding1)
      as (a3 & [(e & ->)|(attrs2 & encoding2 & ->)]).
    { exists (inl e), [a3], (log st1). split; [done|]. split; [simpl; lia|].
      split; [by apply lookup_app_l_Some|]. by intros v' [=]. }
    eexists (inr _), [a3], _. split; [reflexivity|]. split; [simpl; lia|].
    split; [by apply lookup_app_l_Some|].
    intros v' [= <-]. right. by exists a3.
  - apply orb_false_iff in Hany as [Hsf Hao].
    unfold bind at 1, ret at 1. unfold inplace_step. rewrite Hao.
    unfold bind at 1, ret at 1. rewrite Hsf. unfold bind at 1, ret at 1.
    eexists (inr _), [], _. rewrite app_nil_r.
    split; [reflexivity|]. split; [simpl; lia|]. split; [done|].
    intros v' [= <-]. by left.
Qed.

(** The theorem at the example of [scale_offset_order]: data [0, 10] is
    still in place after encoding, and the result is in a second array. *)
Lemma scale_offset_encode_preserves_arrays_witness :
  exists (r : result xr_Variable) (ext : list ndarray) (lg : list event),
    CFScaleOffsetCoder.encode (core := reference_core) examples.to_scale None
      (State [examples.physical] [])
    = (r, State ([examples.physical] ++ ext) lg) /\
    (length ext <= 1)%nat /\
    ([examples.physical] ++ ext) !! 0%nat = Some examples.physical.
Proof.
  destruct (scale_offset_encode_preserves_arrays reference_core examples.to_scale
              None (State [examples.physical] []) (State [examples.physical] [])
              0%nat examples.physical eq_refl eq_refl)
    as (r & ext & lg & Hrun & Hlen & Hsrc & _).
  by exists r, ext, lg.
Defined.

(** ** Round trip of the unsigned coder *)

Lemma cast_signed_view (n : Z) (xs : list scalar) :
  unsigned_values n xs ->
  np.traverse (np.cast (Dtype kind_i n)) xs = inr (signed_view n xs).
Proof.
  induction 1 as [|x xs (z & -> & Hz) _ IH]; simpl; [done|].
  by rewrite IH.
Qed.

Lemma cast_unsigned_back (n : Z) (xs : list scalar) :
  0 < n -> unsigned_values n xs ->
  np.traverse (np.cast (Dtype kind_u n)) (signed_view n xs) = inr xs.
Proof.
  intros Hn. induction 1 as [|x xs (z & -> & Hz) _ IH]; simpl; [done|].
  rewrite IH. unfold np.cast. simpl. by rewrite wrap_unsigned_signed.
Qed.

Lemma around_unsigned_values (n : Z) (xs : list scalar) :
  unsigned_values n xs ->
  map (fun x => match x with SFloat f => SFloat (reference.rint f) | _ => x end) xs
  = xs.
Proof.
  induction 1 as [|x xs (z & -> & Hz) _ IH]; simpl; [done|]. by rewrite IH.
Qed.

Lemma sized_dtype_ok (k : dtype_kind) (n : Z) :
  n = 1 \/ n = 2 \/ n = 4 \/ n = 8 -> sized_dtype k n = inr (Dtype k n).
Proof. intros Hn. unfold sized_dtype. by rewrite bool_decide_eq_true_2. Qed.

Lemma ndarray_eta (a : ndarray) :
  {| arr_dtype := arr_dtype a; arr_values := arr_values a |} = a.
Proof. by destruct a. Qed.

(** Encoding of unsigned data flagged [_Unsigned = "true"]. *)
Lemma unsigned_encode_numpy (v : xr_Variable) (name : option string)
  (st : state) (l : loc) (a : ndarray) (n : Z) :
  _data v = np_ndarray l ->
  heap st !! l = Some a ->
  arr_dtype a = Dtype kind_u n ->
  n = 1 \/ n = 2 \/ n = 4 \/ n = 8 ->
  unsigned_values n (arr_values a) ->
  encoding v !! "_Unsigned" = Some (Scalar (SStr "true")) ->
  attrs v !! "_Unsigned" = None ->
  attrs v !! "_FillValue" = None ->
  UnsignedIntegerCoder.encode (core := reference_core) v name st
  = (inr (mkVariable (dims v) (np_ndarray (S (length (heap st))))
            (<["_Unsigned" := Scalar (SStr "true")]> (attrs v))
            (delete "_Unsigned" (encoding v))),
     State (heap st ++
              [a; {| arr_dtype := Dtype kind_i n;
                     arr_values := signed_view n (arr_values a) |}])
       (log st ++ [NewVariable])).
Proof.
  intros Hdata Hl Hdtype Hn Hvalues Hflag Hfree Hnofill.
  unfold UnsignedIntegerCoder.encode. unfold get at 1. rewrite Hflag.
  cbn [eq_str String.eqb Ascii.eqb Bool.eqb].
  unfold unpack_for_encoding. unfold bind at 1. unfold bind at 1.
  rewrite Hdata. cbn [Variable_data reference_core reference.Variable_data].
  unfold ret at 1. unfold ret at 1.
  rewrite (pop_to_moved _ _ _ (Scalar (SStr "true")) Hflag eq_refl Hfree).
  unfold bind at 1, lift at 1. unfold bind at 1. cbn [array_dtype].
  rewrite (bind_ok _ _ _ _ _ (read_ok _ _ _ Hl)). unfold ret at 1.
  rewrite Hdtype. cbn [itemsize]. unfold bind at 1, lift at 1.
  rewrite (sized_dtype_ok kind_i n Hn).
  unfold bind at 1. unfold UnsignedIntegerCoder.recast_fill.
  rewrite (proj2 (contains_false _ "_FillValue"))
    by (by rewrite lookup_insert_ne).
  unfold ret at 1. unfold bind at 1.
  cbn [around reference_core reference.around].
  unfold bind at 1. unfold reference.around_ndarray. unfold bind at 1.
  rewrite (read_ok _ _ _ Hl). rewrite (around_unsigned_values n _ Hvalues).
  rewrite ndarray_eta. unfold alloc at 1. cbn [heap log]. unfold ret at 1.
  cbn [array_astype]. unfold bind at 1. unfold bind at 1.
  rewrite (astype_eq (State (heap st ++ [a]) (log st)) (length (heap st)) a)
    by apply lookup_new.
  unfold cast_array. rewrite (cast_signed_view n _ Hvalues). cbn [and_then].
  unfold ret at 1. unfold new_Variable, bind, emit, ret. cbn [heap log].
  rewrite length_app, <- app_assoc. simpl. by rewrite Nat.add_1_r.
Qed.

(** Decoding of signed data flagged [_Unsigned = "true"]. *)
Lemma unsigned_decode_numpy (v : xr_Variable) (name : option string)
  (st : state) (l : loc) (a : ndarray) (n : Z) :
  _data v = np_ndarray l ->
  heap st !! l = Some a ->
  arr_dtype a = Dtype kind_i n ->
  n = 1 \/ n = 2 \/ n = 4 \/ n = 8 ->
  attrs v !! "_Unsigned" = Some (Scalar (SStr "true")) ->
  encoding v !! "_Unsigned" = None ->
  attrs v !! "_FillValue" = None ->
  UnsignedIntegerCoder.decode v name st
  = (inr (mkVariable (dims v)
            (explicitly_indexed
               (_ElementwiseFunctionArray (NumpyIndexingAdapter l)
                  (partial_asarray (Dtype kind_u n)) (Dtype kind_u n)))
            (delete "_Unsigned" (attrs v))
            (<["_Unsigned" := Scalar (SStr "true")]> (encoding v))),
     State (heap st) (log st ++ [NewElementwiseFunctionArray; NewVariable])).
Proof.
  intros Hdata Hl Hdtype Hn Hflag Hfree Hnofill.
  unfold UnsignedIntegerCoder.decode.
  rewrite (proj2 (contains_true _ "_Unsigned")) by (by rewrite Hflag).
  unfold unpack_for_decoding.
  rewrite (pop_to_moved _ _ _ (Scalar (SStr "true")) Hflag eq_refl Hfree).
  unfold bind at 1, lift at 1. unfold bind at 1. rewrite Hdata.
  cbn [array_dtype]. rewrite (bind_ok _ _ _ _ _ (read_ok _ _ _ Hl)).
  unfold ret at 1. rewrite Hdtype. cbn [kind itemsize eq_str String.eqb Ascii.eqb Bool.eqb].
  unfold bind at 1. unfold bind at 1, lift at 1.
  rewrite (sized_dtype_ok kind_u n Hn).
  unfold bind at 1.
  unfold lazy_elemwise_func, new_ElementwiseFunctionArray. cbn [is_duck_dask_array].
  unfold bind at 1. unfold bind at 1. unfold emit at 1. unfold ret at 1.
  unfold ret at 1. unfold bind at 1.
  unfold UnsignedIntegerCoder.recast_fill.
  rewrite (proj2 (contains_false _ "_FillValue"))
    by (by rewrite lookup_delete_ne).
  unfold ret at 1. unfold ret at 1.
  unfold new_Variable, bind, emit, ret. cbn [heap log].
  by rewrite <- app_assoc.
Qed.

(** Round trip of unsigned data through the unsigned coder, for every
    width and every array of values in range: encoded with
    [_Unsigned = "true"], the data is stored as the signed integers of the
    same width; decoded and materialised, it is the original array again,
    dtype and values; attrs and encoding are the original ones; and the
    array the caller passed still holds its values. *)
Theorem unsigned_round_trip_any_width (v : xr_Variable) (name : option string)
  (st : state) (l : loc) (a : ndarray) (n : Z) :
  _data v = np_ndarray l ->
  heap st !! l = Some a ->
  arr_dtype a = Dtype kind_u n ->
  n = 1 \/ n = 2 \/ n = 4 \/ n = 8 ->
  unsigned_values n (arr_values a) ->
  encoding v !! "_Unsigned" = Some (Scalar (SStr "true")) ->
  attrs v !! "_Unsigned" = None ->
  attrs v !! "_FillValue" = None ->
  exists (stored : loc) (node : indexable) (out : loc) (st' : state),
    (encoded <- UnsignedIntegerCoder.encode (core := reference_core) v name ;;
     decoded <- UnsignedIntegerCoder.decode encoded name ;;
     match _data decoded with
     | explicitly_indexed node =>
         out <- get_duck_array node ;; ret (_data encoded, decoded, out)
     | _ => raise TypeError
     end) st
    = (inr (np_ndarray stored,
            mkVariable (dims v) (explicitly_indexed node) (attrs v) (encoding v),
            out), st') /\
    heap st' !! stored
    = Some {| arr_dtype := Dtype kind_i n;
              arr_values := signed_view n (arr_values a) |} /\
    indexable_dtype node st' = (inr (Dtype kind_u n), st') /\
    heap st' !! out = Some a /\
    heap st' !! l = Some a.
Proof.
  intros Hdata Hl Hdtype Hn Hvalues Hflag Hfree Hnofill.
  pose proof (unsigned_encode_numpy v name st l a n Hdata Hl Hdtype Hn Hvalues
                Hflag Hfree Hnofill) as Hencode.
  set (signed := {| arr_dtype := Dtype kind_i n;
                    arr_values := signed_view n (arr_values a) |}) in *.
  set (st1 := State (heap st ++ [a; signed]) (log st ++ [NewVariable])) in *.
  assert (heap st1 !! S (length (heap st)) = Some signed) as Hstored.
  { unfold st1. cbn [heap].
    change (heap st ++ [a; signed]) with (heap st ++ [a] ++ [signed]).
    rewrite app_assoc.
    replace (S (length (heap st))) with (length (heap st ++ [a]))
      by (rewrite length_app; simpl; lia).
    apply lookup_new. }
  set (encoded := mkVariable (dims v) (np_ndarray (S (length (heap st))))
                    (<["_Unsigned" := Scalar (SStr "true")]> (attrs v))
                    (delete "_Unsigned" (encoding v))) in *.
  assert (UnsignedIntegerCoder.decode encoded name st1
          = (inr (mkVariable (dims v)
                    (explicitly_indexed
                       (_ElementwiseFunctionArray
                          (NumpyIndexingAdapter (S (length (heap st))))
                          (partial_asarray (Dtype kind_u n)) (Dtype kind_u n)))
                    (attrs v) (encoding v)),
             State (heap st1)
               (log st1 ++ [NewElementwiseFunctionArray; NewVariable])))
    as Hdecode.
  { rewrite (unsigned_decode_numpy encoded name st1 (S (length (heap st)))
               signed n); try done.
    - cbn [dims attrs encoding encoded].
      rewrite delete_insert_id by done. by rewrite insert_delete_id.
    - apply lookup_insert_eq.
    - apply lookup_delete_eq.
    - cbn [attrs encoded]. by rewrite lookup_insert_ne. }
  set (st2 := State (heap st1)
                (log st1 ++ [NewElementwiseFunctionArray; NewVariable])) in *.
  assert (asarray (S (length (heap st))) (Dtype kind_u n) st2
          = (inr (length (heap st2)), State (heap st2 ++ [a]) (log st2)))
    as Hasarray.
  { rewrite (asarray_eq st2 _ signed) by done.
    destruct (decide _) as [Heq|_]; [discriminate Heq|].
    unfold cast_array. cbn [arr_values signed].
    rewrite (cast_unsigned_back n _ ltac:(lia) Hvalues). cbn [and_then].
    by rewrite <- Hdtype, ndarray_eta. }
  eexists _, _, _, _. split.
  { rewrite (bind_ok _ _ _ _ _ Hencode). rewrite (bind_ok _ _ _ _ _ Hdecode).
    cbn [_data get_duck_array call]. unfold bind at 1. unfold bind at 1.
    unfold ret at 1. rewrite Hasarray. unfold ret. reflexivity. }
  split; [by apply lookup_app_l_Some|].
  split; [done|].
  split; [apply lookup_new|].
  apply lookup_app_l_Some. unfold st2, st1. cbn [heap].
  by apply lookup_app_l_Some.
Qed.

(** The theorem at uint8 data [255]: stored as int8 [-1], recovered as
    uint8 [255]. *)
Lemma unsigned_round_trip_any_width_witness :
  exists (stored : loc) (node : indexable) (out : loc) (st' : state),
    (encoded <- UnsignedIntegerCoder.encode (core := reference_core)
                  examples.to_store None ;;
     decoded <- UnsignedIntegerCoder.decode encoded None ;;
     match _data decoded with
     | explicitly_indexed node =>
         out <- get_duck_array node ;; ret (_data encoded, decoded, out)
     | _ => raise TypeError
     end) (State [examples.unsigned_byte] [])
    = (inr (np_ndarray stored,
            mkVariable ["x"] (explicitly_indexed node) ∅
              (<["_Unsigned" := Scalar (SStr "true")]> ∅),
            out), st') /\
    heap st' !! stored = Some examples.minus_one /\
    heap st' !! out = Some examples.unsigned_byte.
Proof.
  destruct (unsigned_round_trip_any_width examples.to_store None
              (State [examples.unsigned_byte] []) 0%nat examples.unsigned_byte 1)
    as (stored & node & out & st' & Hrun & Hstored & _ & Hout & _);
    try reflexivity.
  - by left.
  - repeat constructor. exists 255. split; [reflexivity|lia].
  - by exists stored, node, out, st'.
Defined.

(** ** Metadata round trip of the scale/offset coder *)

Lemma moved_lookup_eq (source dest : dict) (key : string) :
  moved source dest key !! key
  = match source !! key with Some v => Some v | None => dest !! key end.
Proof.
  unfold moved. destruct (source !! key); [|done]. apply lookup_insert_eq.
Qed.

Lemma contains_moved (source dest : dict) (key : string) :
  contains source key = true -> contains (moved source dest key) key = true.
Proof.
  intros Hheld. apply contains_true in Hheld as [v Hv].
  apply contains_true. rewrite moved_lookup_eq, Hv. by eexists.
Qed.







(** ** Indexing commutes with the transforms *)





















(** ** Decoding is lazy *)

Lemma keeps_store_ret {A : Type} (a : A) : keeps_store (ret a).
Proof. done. Qed.

Lemma keeps_store_raise {A : Type} (e : exn) : keeps_store (raise (A := A) e).
Proof. done. Qed.

Lemma keeps_store_lift {A : Type} (r : result A) : keeps_store (lift r).
Proof. done. Qed.

Lemma keeps_store_emit (e : event) : keeps_store (emit e).
Proof. done. Qed.

Lemma keeps_store_read (l : loc) : keeps_store (read l).
Proof. intros st. unfold read. by destruct (heap st !! l). Qed.

Lemma keeps_store_bind {A B : Type} (m : M A) (k : A -> M B) :
  keeps_store m -> (forall a, keeps_store (k a)) -> keeps_store (bind m k).
Proof.
  intros Hm Hk st. unfold bind. specialize (Hm st).
  destruct (m st) as [[e|a] st']; simpl in *; [done|].
  by rewrite Hk.
Qed.

Ltac keeps_store :=
  repeat first
    [ apply keeps_store_ret | apply keeps_store_raise | apply keeps_store_lift
    | apply keeps_store_emit | apply keeps_store_read
    | apply keeps_store_bind; [|intros]
    | match goal with
      | |- keeps_store (match ?x with _ => _ end) => destruct x
      end ].

Lemma keeps_store_array_dtype (data : array) : keeps_store (array_dtype data).
Proof. unfold array_dtype, indexable_dtype. keeps_store. Qed.

Lemma keeps_store_lazy_elemwise_func (data : array) (f : func) (d : dtype) :
  keeps_store (lazy_elemwise_func data f d).
Proof.
  unfold lazy_elemwise_func, new_ElementwiseFunctionArray.
  destruct data; simpl; keeps_store.
Qed.

Lemma keeps_store_new_Variable (dims : list string) (data : array)
  (attrs encoding : dict) : keeps_store (new_Variable dims data attrs encoding).
Proof. unfold new_Variable. keeps_store. Qed.

(** X13. Decoding is lazy: whatever the variable and its payload (a numpy
    array, a dask array or a lazy node), and whether the call returns or
    raises, none of the three decoders allocates an array or changes one;
    the arrays of the store after the call are the arrays before it. *)
Theorem decode_keeps_store (core : XarrayCore) (v : xr_Variable)
  (name : option string) :
  keeps_store (CFMaskCoder.decode v name) /\
  keeps_store (CFScaleOffsetCoder.decode v name) /\
  keeps_store (UnsignedIntegerCoder.decode v name).
Proof.
  split; [|split].
  - unfold CFMaskCoder.decode, unpack_for_decoding, warn.
    repeat first
      [ apply keeps_store_array_dtype | apply keeps_store_lazy_elemwise_func
      | apply keeps_store_new_Variable | progress keeps_store ].
  - unfold CFScaleOffsetCoder.decode, unpack_for_decoding.
    repeat first
      [ apply keeps_store_array_dtype | apply keeps_store_lazy_elemwise_func
      | apply keeps_store_new_Variable | progress keeps_store ].
  - unfold UnsignedIntegerCoder.decode, UnsignedIntegerCoder.recast_fill,
      unpack_for_decoding, warn.
    repeat first
      [ apply keeps_store_array_dtype | apply keeps_store_lazy_elemwise_func
      | apply keeps_store_new_Variable | progress keeps_store ].
Qed.

(** ** Decoders never overwrite an entry of encoding *)

(** What [pop_to] can do: the only exception is the collision error, and
    other keys are kept on both sides. *)
Lemma pop_to_cases (source dest : dict) (key : string) :
  exists (source' dest' : dict) (r : result pyval),
    pop_to source dest key = (source', dest', r) /\
    (r = inl overwrite_error \/ exists v, r = inr v) /\
    forall key', key' <> key ->
      source' !! key' = source !! key' /\
      (is_Some (dest !! key') -> is_Some (dest' !! key')).
Proof.
  unfold pop_to, safe_setitem.
  destruct (is_not_None (get source key PNone)).
  - destruct (contains dest key).
    + eexists _, _, _. split; [done|]. split; [by left|].
      intros key' Hne. by rewrite lookup_delete_ne.
    + eexists _, _, _. split; [done|]. split; [right; by eexists|].
      intros key' Hne. rewrite lookup_delete_ne by done.
      by rewrite lookup_insert_ne.
  - eexists _, _, _. split; [done|]. split; [right; by eexists|].
    intros key' Hne. by rewrite lookup_delete_ne.
Qed.

(** A collision on the second of two keys popped in a row: the pair of
    calls raises the collision error, at the first or at the second. *)
Lemma pop_to_twice_collision (source dest : dict) (first key : string)
  (value : pyval) :
  first <> key ->
  source !! key = Some value -> is_not_None value = true -> is_Some (dest !! key) ->
  exists (source' dest' : dict) (r : result pyval),
    pop_to source dest first = (source', dest', r) /\
    (r = inl overwrite_error \/
     exists v, r = inr v /\
       pop_to source' dest' key = (delete key source', dest', inl overwrite_error)).
Proof.
  intros Hne Hvalue Hnot Hheld.
  destruct (pop_to_cases source dest first)
    as (source' & dest' & r & Hpop & [->|[v ->]] & Hframe).
  - exists source', dest', (inl overwrite_error). split; [done|]. by left.
  - exists source', dest', (inr v). split; [done|]. right. exists v. split; [done|].
    destruct (Hframe key) as [Hsource Hdest]; [done|].
    apply (pop_to_collision _ _ _ value); [by rewrite Hsource|done|by apply Hdest].
Qed.

(** X14. A decoder never overwrites an entry of encoding: when attrs holds
    one of the decoder's keys with a value that is not [None] and encoding
    holds the same key, the decoder raises the collision error of
    [safe_setitem] before it builds anything; the store and the log are
    left as they were. *)
Theorem decode_refuses_overwrite (core : XarrayCore) (v : xr_Variable)
  (name : option string) (st : state) (key : string) (value : pyval) :
  attrs v !! key = Some value ->
  is_not_None value = true ->
  is_Some (encoding v !! key) ->
  (key = "missing_value" \/ key = "_FillValue" ->
   CFMaskCoder.decode v name st = (inl overwrite_error, st)) /\
  (key = "scale_factor" \/ key = "add_offset" ->
   CFScaleOffsetCoder.decode v name st = (inl overwrite_error, st)) /\
  (key = "_Unsigned" ->
   UnsignedIntegerCoder.decode v name st = (inl overwrite_error, st)).
Proof.
  intros Hvalue Hnot Hheld. split; [|split].
  - intros [->| ->]; unfold CFMaskCoder.decode, unpack_for_decoding.
    + by rewrite (pop_to_collision _ _ _ value).
    + destruct (pop_to_twice_collision (attrs v) (encoding v) "missing_value"
                  "_FillValue" value) as (a1 & e1 & r & -> & [->|(w & -> & Hsecond)]);
        try done.
      unfold bind at 1, lift at 1. by rewrite Hsecond.
  - intros Hkey.
    assert (contains (attrs v) "scale_factor" || contains (attrs v) "add_offset" = true)
      as Hany.
    { apply orb_true_iff.
      destruct Hkey as [->| ->]; [left|right]; apply contains_true; by eexists. }
    unfold CFScaleOffsetCoder.decode, unpack_for_decoding. rewrite Hany.
    destruct Hkey as [->| ->].
    + by rewrite (pop_to_collision _ _ _ value).
    + destruct (pop_to_twice_collision (attrs v) (encoding v) "scale_factor"
                  "add_offset" value) as (a1 & e1 & r & -> & [->|(w & -> & Hsecond)]);
        try done.
      unfold bind at 1, lift at 1. by rewrite Hsecond.
  - intros ->. unfold UnsignedIntegerCoder.decode, unpack_for_decoding.
    rewrite (proj2 (contains_true (attrs v) "_Unsigned")) by (by eexists).
    by rewrite (pop_to_collision _ _ _ value).
Qed.

(** The theorem at a variable that holds [add_offset = 1] in attrs and in
    encoding: the scale/offset decoder raises and leaves the state as it
    was. *)
Lemma decode_refuses_overwrite_witness :
  CFScaleOffsetCoder.decode
    (mkVariable ["x"] (np_ndarray 0%nat) examples.scaled_encoding
       examples.scaled_encoding) None (State [examples.raw] [])
  = (inl overwrite_error, State [examples.raw] []).
Proof.
  apply (decode_refuses_overwrite reference_core
           (mkVariable ["x"] (np_ndarray 0%nat) examples.scaled_encoding
              examples.scaled_encoding) None (State [examples.raw] [])
           "add_offset" (Scalar (SInt 1))).
  - reflexivity.
  - reflexivity.
  - by exists (Scalar (SInt 1)).
  - by right.
Defined.
